(** * Partizan 2022/23 box-score notebooks: validation, feature building, modelling

    A shallow embedding of the notebooks of the repository:
    - the cleaning notebook (playing time, duplicate rows, player names),
    - the data-validation notebook (team totals against player sums),
    - the consistency-analysis notebook (standard deviations, lag-1
      autocorrelation of points),
    - the predictive-modelling notebook (lag feature, global and per-player
      regression).

    A pandas DataFrame is a list of rows in frame order; an int64 column is
    a [Z] whose column sums wrap around at 64 bits; what a cell prints is
    the list of its output lines, threaded through a small writer/exception
    monad so that "the cell raises" has a meaning. *)

From Stdlib Require Import ZArith List String Ascii Bool Lia DecimalString.
From Stdlib Require Import Permutation Sorted OrderedTypeEx RelationClasses.
From Stdlib Require Import Reals Lra.
Import ListNotations.

Local Open Scope string_scope.
Local Open Scope list_scope.
Local Open Scope Z_scope.

Infix "+++" := String.append (at level 60, right associativity).

(** ** The cleaned data set: one row of [partizan_2022_cleaned.csv] *)

Record Row : Type := mkRow {
  game : string;                 (* two team codes, home first: "PAR-MAD" *)
  round : Z;
  phase : string;                (* "REGULAR SEASON" or "PLAYOFFS" *)
  is_starter : bool;
  is_playing : bool;
  player : string;               (* a player name, or the team sentinel *)
  minutes : string;
  points : Z;
  two_points_made : Z;
  two_points_attempted : Z;
  three_points_made : Z;
  three_points_attempted : Z;
  free_throws_made : Z;
  free_throws_attempted : Z;
  offensive_rebounds : Z;
  defensive_rebounds : Z;
  total_rebounds : Z;
  assists : Z;
  steals : Z;
  turnovers : Z;
  blocks_favour : Z;
  blocks_against : Z;
  fouls_committed : Z;
  fouls_received : Z;
  valuation : Z;
  plus_minus : Z;
  total_seconds : Z
}.

Definition DataFrame : Type := list Row.

(** The reserved value of the [player] column that marks a team-aggregate row. *)
Definition TEAM : string := "PARTIZAN MOZZART BET BELGRADE".

(** ** Printing and raising *)

(** A cell either runs to its end or raises; in both cases it has printed
    some lines. *)
Inductive run (L A : Type) : Type :=
| Done (a : A) (out : list L)
| Raise (err : string) (out : list L).

Arguments Done {L A} a out.
Arguments Raise {L A} err out.

Definition ret {L A} (a : A) : run L A := Done a [].

Definition bind {L A B} (m : run L A) (k : A -> run L B) : run L B :=
  match m with
  | Done a out =>
      match k a with
      | Done b out' => Done b (out ++ out')
      | Raise e out' => Raise e (out ++ out')
      end
  | Raise e out => Raise e out
  end.

Definition print {L} (l : L) : run L unit := Done tt [l].

Declare Scope run_scope.
Delimit Scope run_scope with run.
Notation "x <- m ;; k" := (bind m (fun x => k))
  (at level 61, m at next level, right associativity) : run_scope.
Notation "m ;;; k" := (bind m (fun _ => k))
  (at level 61, right associativity) : run_scope.
Local Open Scope run_scope.

Definition stdout {L A} (m : run L A) : list L :=
  match m with Done _ out => out | Raise _ out => out end.

Definition raises {L A} (m : run L A) : bool :=
  match m with Done _ _ => false | Raise _ _ => true end.

(** ** int64 columns *)

Definition wrap64 (z : Z) : Z := (z + 2 ^ 63) mod 2 ^ 64 - 2 ^ 63.

Definition Zsum (l : list Z) : Z := fold_right Z.add 0 l.

(** [df[col].sum()] on an int64 column. *)
Definition col_sum (col : Row -> Z) (df : DataFrame) : Z :=
  wrap64 (Zsum (map col df)).

(** An f-string placeholder holding an integer. *)
Definition str_of_Z (z : Z) : string := NilZero.string_of_int (Z.to_int z).

(** [series.unique()]: the distinct values in order of first appearance. *)
Fixpoint unique_from (seen : list string) (l : list string) : list string :=
  match l with
  | [] => []
  | x :: rest =>
      if existsb (String.eqb x) seen then unique_from seen rest
      else x :: unique_from (x :: seen) rest
  end.

Definition unique (l : list string) : list string := unique_from [] l.

(** ** The data-validation notebook *)

Module Validation.

Definition partizan_team (df : DataFrame) : DataFrame :=
  filter (fun r => String.eqb (player r) TEAM) df.

Definition partizan_players (df : DataFrame) : DataFrame :=
  filter (fun r => negb (String.eqb (player r) TEAM)) df.


Definition check_metrics (df : DataFrame) : run string unit :=
  if (col_sum total_seconds (partizan_players df) =? col_sum total_seconds (partizan_team df))
     && (col_sum points (partizan_players df) =? col_sum points (partizan_team df))
     && (col_sum assists (partizan_players df) =? col_sum assists (partizan_team df))
     && (col_sum free_throws_made (partizan_players df) =? col_sum free_throws_made (partizan_team df))
     && (col_sum free_throws_attempted (partizan_players df) =? col_sum free_throws_attempted (partizan_team df))
     && (col_sum fouls_committed (partizan_players df) =? col_sum fouls_committed (partizan_team df))
     && (col_sum fouls_received (partizan_players df) =? col_sum fouls_received (partizan_team df))
  then print "All metrics that should match perfectly are matching perfectly"
  else print "All metrics that should match perfectly are not matching perfectly".

Definition msg_all_matching : string := "All metrics are matching perfectly".
Definition msg_rebounds : string :=
  "Total rebounds are not matching perfectly, Reason: Team rebounds (e.g., dead-ball rebounds not attributed to any player) are included in the team total but not in individual stats.".
Definition msg_steals : string :=
  "Total steals are not matching perfectly, Reason: Discrepancy likely due to "
  +++ String (ascii_of_nat 34) "team steals"
  +++ String (ascii_of_nat 34) " (e.g., deflections not credited to a specific player) in the team total.".
Definition msg_turnovers : string :=
  "Total turnovers are not matching perfectly, Reason: Team turnovers (e.g., shot-clock violations, 8-second violations) are counted in the team total but not assigned to individual players.".

(** [if c: print(s)] *)
Definition print_if (c : bool) (s : string) : run string unit :=
  if c then print s else ret tt.

Definition check_and_explain_metrics (df : DataFrame) : run string unit :=
  let partizan_players_total_rebounds := col_sum total_rebounds (partizan_players df) in
  let partizan_team_total_rebounds := col_sum total_rebounds (partizan_team df) in
  let partizan_players_total_steals := col_sum steals (partizan_players df) in
  let partizan_team_total_steals := col_sum steals (partizan_team df) in
  let partizan_players_total_turnovers := col_sum turnovers (partizan_players df) in
  let partizan_team_total_turnovers := col_sum turnovers (partizan_team df) in
  print_if ((partizan_players_total_rebounds =? partizan_team_total_rebounds)
            && (partizan_players_total_steals =? partizan_team_total_steals)
            && (partizan_players_total_turnovers =? partizan_team_total_turnovers))
           msg_all_matching ;;;
  print_if (negb (partizan_players_total_rebounds =? partizan_team_total_rebounds))
           msg_rebounds ;;;
  print_if (negb (partizan_players_total_steals =? partizan_team_total_steals))
           msg_steals ;;;
  print_if (negb (partizan_players_total_turnovers =? partizan_team_total_turnovers))
           msg_turnovers.

(** Team total minus player sum, an int64 subtraction. *)
Definition rebound_difference (df : DataFrame) : Z :=
  wrap64 (col_sum total_rebounds (partizan_team df)
          - col_sum total_rebounds (partizan_players df)).

Definition turnover_difference (df : DataFrame) : Z :=
  wrap64 (col_sum turnovers (partizan_team df)
          - col_sum turnovers (partizan_players df)).

Definition unassigned_cell (df : DataFrame) : run string unit :=
  print ("Unassigned team rebounds: " +++ str_of_Z (rebound_difference df)) ;;;
  print ("Unassigned team turnovers: " +++ str_of_Z (turnover_difference df)).

(** The rows of one game, split as the per-game loop splits them. *)
Definition game_data (df : DataFrame) (g : string) : DataFrame :=
  filter (fun r => String.eqb (game r) g) df.

Definition team_row (df : DataFrame) (g : string) : DataFrame :=
  filter (fun r => String.eqb (player r) TEAM) (game_data df g).

Definition players_in_game (df : DataFrame) (g : string) : DataFrame :=
  filter (fun r => negb (String.eqb (player r) TEAM)) (game_data df g).

Definition games (df : DataFrame) : list string := unique (map game df).

(** One metric of one game: [if team != players: print(...); flag = False]. *)
Definition check_game_metric (label : string) (col : Row -> Z)
    (df : DataFrame) (g : string) (all_metrics_match : bool) : run string bool :=
  if negb (col_sum col (team_row df g) =? col_sum col (players_in_game df g))
  then print (label +++ " mismatch in game " +++ g) ;;; ret false
  else ret all_metrics_match.

Definition check_game (df : DataFrame) (g : string) (all_metrics_match : bool)
    : run string bool :=
  m1 <- check_game_metric "Points" points df g all_metrics_match ;;
  m2 <- check_game_metric "Assists" assists df g m1 ;;
  check_game_metric "Seconds" total_seconds df g m2.

Fixpoint per_game_loop (df : DataFrame) (gs : list string)
    (all_metrics_match : bool) : run string bool :=
  match gs with
  | [] => ret all_metrics_match
  | g :: rest =>
      m <- check_game df g all_metrics_match ;;
      per_game_loop df rest m
  end.

Definition msg_games_ok : string :=
  "Team totals match players sums for all metrics in all games.".

Definition per_game_cell (df : DataFrame) : run string bool :=
  all_metrics_match <- per_game_loop df (games df) true ;;
  print_if all_metrics_match msg_games_ok ;;;
  ret all_metrics_match.

(** The three metrics the per-game loop looks at, with the word each one
    has in the mismatch line. *)
Definition per_game_metrics : list (string * (Row -> Z)) :=
  [("Points", points); ("Assists", assists); ("Seconds", total_seconds)].

Definition metric_mismatch (col : Row -> Z) (df : DataFrame) (g : string) : bool :=
  negb (col_sum col (team_row df g) =? col_sum col (players_in_game df g)).

(** The mismatch lines of one game, in the order the loop prints them. *)
Definition mismatch_lines (df : DataFrame) (g : string) : list string :=
  flat_map (fun lc => if metric_mismatch (snd lc) df g
                      then [fst lc +++ " mismatch in game " +++ g] else [])
           per_game_metrics.

Definition game_ok (df : DataFrame) (g : string) : bool :=
  forallb (fun lc => negb (metric_mismatch (snd lc) df g)) per_game_metrics.

(** *** Games and game codes

    The [game] column holds a code made of the two team codes, and a fixture
    that is played again comes under the same code. A game of the season is
    known by its code together with its phase and its round. *)

Definition same_game (a b : Row) : bool :=
  String.eqb (game a) (game b) && String.eqb (phase a) (phase b)
  && (round a =? round b).

(** The rows of the game that the row [r0] belongs to. *)
Definition rows_of_game (df : DataFrame) (r0 : Row) : DataFrame :=
  filter (same_game r0) df.

(** Every game has a code of its own: two rows with the same code are rows
    of the same game. *)
Definition distinct_codes (df : DataFrame) : bool :=
  forallb (fun a =>
             forallb (fun b => implb (String.eqb (game a) (game b)) (same_game a b)) df)
          df.

(** The cross-aggregate checks of the notebook, in cell order. *)
Definition validator (df : DataFrame) : run string bool :=
  check_metrics df ;;;
  check_and_explain_metrics df ;;;
  unassigned_cell df ;;;
  per_game_cell df.

End Validation.

(** ** Sorting a frame: [sort_values(['player', 'phase_order', 'round'])] *)

(** A three-way comparison that behaves as a total preorder. *)
Record CmpLaws {A : Type} (cmp : A -> A -> comparison) : Prop := {
  cmp_antisym : forall a b, cmp b a = CompOpp (cmp a b);
  cmp_lt_trans : forall a b c, cmp a b = Lt -> cmp b c = Lt -> cmp a c = Lt;
  cmp_eq_subst : forall a b c, cmp a b = Eq -> cmp a c = cmp b c
}.

(** Compare by a first key, break ties by a second one. *)
Definition lex {A : Type} (c1 c2 : A -> A -> comparison) (a b : A) : comparison :=
  match c1 a b with
  | Eq => c2 a b
  | c => c
  end.

Definition leb_of {A : Type} (cmp : A -> A -> comparison) (a b : A) : bool :=
  match cmp a b with
  | Gt => false
  | _ => true
  end.

Section StableSort.
Context {A : Type} (cmp : A -> A -> comparison).

Fixpoint insert_by (x : A) (l : list A) : list A :=
  match l with
  | [] => [x]
  | y :: rest => if leb_of cmp x y then x :: l else y :: insert_by x rest
  end.

(** Rows with equal keys keep their frame order. *)
Definition sort_by (l : list A) : list A := fold_right insert_by [] l.
End StableSort.

(** [series.map(d)]: a value that is not a key of the dict becomes NaN. *)
Fixpoint dict_get (d : list (string * Z)) (k : string) : option Z :=
  match d with
  | [] => None
  | (k', v) :: rest => if String.eqb k k' then Some v else dict_get rest k
  end.

(** Sort keys that may be NaN: [sort_values] puts NaN last. *)
Definition nan_last_compare (a b : option Z) : comparison :=
  match a, b with
  | Some x, Some y => x ?= y
  | Some _, None => Lt
  | None, Some _ => Gt
  | None, None => Eq
  end.

Section TotalOrder.
(** The dict the notebook maps the [phase] column through. *)
Variable phase_dict : list (string * Z).

Definition phase_order (r : Row) : option Z := dict_get phase_dict (phase r).

(** The chronological key of a record: [(phase_order, round)]. *)
Definition totalOrder (r : Row) : option Z * Z := (phase_order r, round r).

Definition totalOrder_compare : Row -> Row -> comparison :=
  lex (fun a b => nan_last_compare (phase_order a) (phase_order b))
      (fun a b => round a ?= round b).

(** [a] comes strictly before [b] in the chronological order. *)
Definition precedes (a b : Row) : Prop := totalOrder_compare a b = Lt.

Definition sort_key_compare : Row -> Row -> comparison :=
  lex (fun a b => String.compare (player a) (player b)) totalOrder_compare.

Definition sort_values (df : DataFrame) : DataFrame :=
  sort_by sort_key_compare df.
End TotalOrder.

(** The rows of one player, in frame order. *)
Definition player_rows (p : string) (df : DataFrame) : DataFrame :=
  filter (fun r => String.eqb (player r) p) df.

(** [df.groupby('player')['points'].shift(1)]: for each row, the points of
    the latest earlier row of the same player, NaN when there is none. *)
Fixpoint shift1_from (seen : list Row) (df : DataFrame) : list (option Z) :=
  match df with
  | [] => []
  | r :: rest =>
      option_map points (find (fun q => String.eqb (player q) (player r)) seen)
      :: shift1_from (r :: seen) rest
  end.

Definition groupby_player_points_shift1 (df : DataFrame) : list (option Z) :=
  shift1_from [] df.

(** [dropna(subset=[col])] on a frame that carries one nullable column. *)
Fixpoint dropna {A B : Type} (l : list (A * option B)) : list (A * B) :=
  match l with
  | [] => []
  | (a, Some z) :: rest => (a, z) :: dropna rest
  | (_, None) :: rest => dropna rest
  end.

(** *** The lag of one series

    What the grouped shift and the [dropna] after it amount to on the rows
    of a single player; the notebook is compared with these below. *)

(** The lag column of one player's series: the value carried in from before
    the series, then the points of each record but the last. *)
Fixpoint lag_from (prev : option Z) (s : list Row) : list (option Z) :=
  match s with
  | [] => []
  | r :: rest => prev :: lag_from (Some (points r)) rest
  end.

Definition of_player (p : string) (rz : Row * option Z) : bool :=
  String.eqb (player (fst rz)) p.

(** Each record after the first, paired with the points of its predecessor. *)
Fixpoint with_previous (prev : Z) (s : list Row) : list (Row * Z) :=
  match s with
  | [] => []
  | r :: rest => (r, prev) :: with_previous (points r) rest
  end.

Definition training_rows (s : list Row) : list (Row * Z) :=
  match s with
  | [] => []
  | r :: rest => with_previous (points r) rest
  end.

(** ** The predictive-modelling notebook *)

(** One printed line: the arguments of [print], f-string placeholders
    included, in order. Floats are kept as numbers, not rendered. *)
Inductive item : Type :=
| Str (s : string)          (* literal text or a string placeholder *)
| Int (z : Z)               (* an integer placeholder *)
| Flt (x : R)               (* a float printed in full *)
| Flt2 (x : R)              (* a float under the format [:.2f] *)
| Vec (xs : list R).        (* a numpy array *)

Definition line : Type := list item.

Record LinModel : Type := mkLinModel { intercept_ : R; coef_ : list R }.

(** The scikit-learn calls of the notebook. Their code is not part of the
    repository; the notebook is modelled for any functions in their place. *)
Record Sklearn : Type := mkSklearn {
  (* the positions train_test_split(..., test_size, random_state) selects
     among [n_samples] rows: (train, test) *)
  split_indices : nat -> R -> Z -> list nat * list nat;
  (* LinearRegression().fit(X, y) *)
  linreg_fit : list (list R) -> list R -> LinModel;
  linreg_predict : LinModel -> list (list R) -> list R;
  (* RandomForestRegressor(random_state, n_estimators).fit(X, y) *)
  Forest : Type;
  rf_fit : Z -> Z -> list (list R) -> list R -> Forest;
  rf_predict : Forest -> list (list R) -> list R;
  feature_importances_ : Forest -> list R;
  r2_score : list R -> list R -> R;
  mean_squared_error : list R -> list R -> R
}.

Module Modeling.

Definition min_player_games : nat := 10.

Definition players (df : DataFrame) : DataFrame :=
  filter (fun r => negb (String.eqb (player r) TEAM)) df.

(** [players[players['is_playing'] == True]] *)
Definition active_players_playing (df : DataFrame) : DataFrame :=
  filter (fun r => Bool.eqb (is_playing r) true) (players df).

(** [active_players.groupby('player')['game'].nunique()] at one player. *)
Definition player_games (df : DataFrame) (p : string) : nat :=
  List.length (unique (map game (player_rows p (active_players_playing df)))).

(** Keep the rows of the players with at least ten games. *)
Definition active_players_eligible (df : DataFrame) : DataFrame :=
  filter (fun r => Nat.leb min_player_games (player_games df (player r)))
         (active_players_playing df).

Definition phase_dict : list (string * Z) :=
  [("REGULAR SEASON", 0); ("PLAYOFFS", 1)].

Definition active_players_sorted (df : DataFrame) : DataFrame :=
  sort_values phase_dict (active_players_eligible df).

(** The sorted frame with its new column [points_previous_game]. *)
Definition active_players_lagged (df : DataFrame) : list (Row * option Z) :=
  combine (active_players_sorted df)
          (groupby_player_points_shift1 (active_players_sorted df)).

(** A row of the frame the models are trained on. *)
Record Sample : Type := mkSample {
  row : Row;
  points_previous_game : Z;
  is_playoff : Z;
  is_home : Z
}.

Definition add_context (rz : Row * Z) : Sample :=
  {| row := fst rz;
     points_previous_game := snd rz;
     is_playoff := if String.eqb (phase (fst rz)) "PLAYOFFS" then 1 else 0;
     is_home := if String.prefix "PAR" (game (fst rz)) then 1 else 0 |}.

(** [active_players] as the modelling cells see it. *)
Definition active_players (df : DataFrame) : list Sample :=
  map add_context (dropna (active_players_lagged df)).

(** A player's records in the sorted frame: the player's series. *)
Definition series (df : DataFrame) (p : string) : list Row :=
  player_rows p (active_players_sorted df).

(** The series with its lag column, before [dropna]. *)
Definition lagged_series (df : DataFrame) (p : string) : list (Row * option Z) :=
  filter (of_player p) (active_players_lagged df).

(** The player's rows of the frame the models are trained on. *)
Definition pooled (df : DataFrame) (p : string) : list Sample :=
  filter (fun s => String.eqb (player (row s)) p) (active_players df).

(** [X = data[['total_seconds', 'points_previous_game', 'is_playoff', 'is_home']]] *)
Definition features (s : Sample) : list R :=
  [IZR (total_seconds (row s)); IZR (points_previous_game s);
   IZR (is_playoff s); IZR (is_home s)].

Definition target (s : Sample) : R := IZR (points (row s)).

Definition take_rows {A : Type} (idx : list nat) (l : list A) : list A :=
  flat_map (fun i => match nth_error l i with Some x => [x] | None => [] end) idx.

Definition nl : string := String (ascii_of_nat 10) EmptyString.

Definition coef_label : string :=
  "Coefficients (total_seconds, points_previous_game, is_playoff, is_home):".

(** The line of the early return of [train_player_model]. *)
Definition not_enough_line (player_name : string) (n : nat) : line :=
  [Str "Not enough data for "; Str player_name; Str " (only ";
   Int (Z.of_nat n); Str " games)."].

(** The shapes of the lines the modelling cells print: a float is always an
    intercept, an R-squared or a mean squared error, an array always the
    coefficients or the feature importances. *)
Inductive reported : line -> Prop :=
| rep_title (s : string) : reported [Str s]
| rep_player (s name : string) : reported [Str s; Str name; Str ":"]
| rep_intercept (x : R) : reported [Str "Intercept:"; Flt x]
| rep_coef (xs : list R) : reported [Str coef_label; Vec xs]
| rep_r2 (x : R) : reported [Str "R-squared: "; Flt2 x]
| rep_mse (x : R) : reported [Str "Mean Squared Error: "; Flt2 x]
| rep_importance (xs : list R) :
    reported [Str "Feature Importance (total_seconds, points_previous_game, is_playoff, is_home):";
              Vec xs]
| rep_not_enough (name : string) (n : nat) : reported (not_enough_line name n).

(** Every number on a line. *)
Definition floats_of (l : line) : list R :=
  flat_map (fun i => match i with
                     | Flt x | Flt2 x => [x]
                     | Vec xs => xs
                     | Str _ | Int _ => []
                     end) l.

Definition printed_floats (out : list line) : list R := flat_map floats_of out.

Section Harness.
Variable sk : Sklearn.

(** The rows that [train_test_split(X, y, test_size=0.2, random_state=42)]
    puts in the train set and in the test set. *)
Definition split_rows (data : list Sample) : list Sample * list Sample :=
  let '(train, test) := split_indices sk (List.length data) (2 / 10)%R 42 in
  (take_rows train data, take_rows test data).

(** The call itself. scikit-learn raises ValueError when the train set would
    be empty: with a test size of 0.2 the test set takes ceil(0.2 n) of the n
    rows, which is all of them when there are fewer than two. *)
Definition train_test_split (data : list Sample)
    : run line (list Sample * list Sample) :=
  if Nat.ltb (List.length data) 2 then Raise "ValueError" []
  else ret (split_rows data).

(** The linear-regression cell. *)
Definition linear_cell (data : list Sample) : run line unit :=
  split <- train_test_split data ;;
  let '(train, test) := split in
  let lr_model := linreg_fit sk (map features train) (map target train) in
  print [Str "Linear Regression Results:"] ;;;
  print [Str "Intercept:"; Flt (intercept_ lr_model)] ;;;
  print [Str coef_label; Vec (coef_ lr_model)] ;;;
  let y_pred_lr := linreg_predict sk lr_model (map features test) in
  let r2_lr := r2_score sk (map target test) y_pred_lr in
  let mse_lr := mean_squared_error sk (map target test) y_pred_lr in
  print [Str "R-squared: "; Flt2 r2_lr] ;;;
  print [Str "Mean Squared Error: "; Flt2 mse_lr].

(** The random-forest cell. It has no split of its own: it reads the train
    and test sets the cell above has left behind, and so runs only after that
    cell has run to its end. *)
Definition forest_cell (data : list Sample) : run line unit :=
  let '(train, test) := split_rows data in
  let rf_model := rf_fit sk 42 100 (map features train) (map target train) in
  let y_pred_rf := rf_predict sk rf_model (map features test) in
  let r2_rf := r2_score sk (map target test) y_pred_rf in
  let mse_rf := mean_squared_error sk (map target test) y_pred_rf in
  print [Str (nl +++ "Random Forest Results:")] ;;;
  print [Str "R-squared: "; Flt2 r2_rf] ;;;
  print [Str "Mean Squared Error: "; Flt2 mse_rf] ;;;
  print [Str "Feature Importance (total_seconds, points_previous_game, is_playoff, is_home):";
         Vec (feature_importances_ sk rf_model)].

(** R-squared and mean squared error of the linear model on the holdout. *)
Definition linear_scores (data : list Sample) : R * R :=
  let '(train, test) := split_rows data in
  let model := linreg_fit sk (map features train) (map target train) in
  let y_pred := linreg_predict sk model (map features test) in
  (r2_score sk (map target test) y_pred,
   mean_squared_error sk (map target test) y_pred).

(** The same two scores for the random forest. *)
Definition forest_scores (data : list Sample) : R * R :=
  let '(train, test) := split_rows data in
  let model := rf_fit sk 42 100 (map features train) (map target train) in
  let y_pred := rf_predict sk model (map features test) in
  (r2_score sk (map target test) y_pred,
   mean_squared_error sk (map target test) y_pred).

Definition player_data (data : list Sample) (player_name : string) : list Sample :=
  filter (fun s => String.eqb (player (row s)) player_name) data.

Definition train_player_model (data : list Sample) (player_name : string)
    : run line unit :=
  let player_data := player_data data player_name in
  if Nat.ltb (List.length player_data) 10 then
    print [Str "Not enough data for "; Str player_name; Str " (only ";
           Int (Z.of_nat (List.length player_data)); Str " games)."]
  else
    split <- train_test_split player_data ;;
    let '(train, test) := split in
    let model_player := linreg_fit sk (map features train) (map target train) in
    let y_pred_p := linreg_predict sk model_player (map features test) in
    let r2_p := r2_score sk (map target test) y_pred_p in
    let mse_p := mean_squared_error sk (map target test) y_pred_p in
    print [Str (nl +++ "Results for "); Str player_name; Str ":"] ;;;
    print [Str "Intercept:"; Flt (intercept_ model_player)] ;;;
    print [Str coef_label; Vec (coef_ model_player)] ;;;
    print [Str "R-squared: "; Flt2 r2_p] ;;;
    print [Str "Mean Squared Error: "; Flt2 mse_p].

(** One call of [train_player_model] after the other. *)
Fixpoint train_players (data : list Sample) (roster : list string)
    : run line unit :=
  match roster with
  | [] => ret tt
  | player_name :: rest =>
      train_player_model data player_name ;;; train_players data rest
  end.

Definition roster : list string := ["Punter Kevin"; "Lessort Mathias"].

(** The modelling cells of the notebook, in order. *)
Definition harness (df : DataFrame) (requested : list string) : run line unit :=
  let data := active_players df in
  linear_cell data ;;;
  forest_cell data ;;;
  train_players data requested.

Definition notebook (df : DataFrame) : run line unit := harness df roster.
End Harness.

End Modeling.


(** ** The consistency-analysis notebook *)

(** *** pandas statistics

    The float64 arithmetic of pandas and numpy is modelled on exact reals;
    NaN is [None]. *)

Definition Rsum (l : list R) : R := fold_right Rplus 0%R l.

Definition count (xs : list Z) : R := INR (List.length xs).

(** [Series.mean()] of an int64 series. *)
Definition series_mean (xs : list Z) : option R :=
  match xs with
  | [] => None
  | _ :: _ => Some (IZR (Zsum xs) / count xs)%R
  end.

Definition avg (xs : list Z) : R := (IZR (Zsum xs) / count xs)%R.

(** The sum of the products of the deviations from the two means. *)
Definition dev_products (a b : list Z) : R :=
  Rsum (map (fun ab => ((IZR (fst ab) - avg a) * (IZR (snd ab) - avg b))%R)
            (combine a b)).

(** [Series.std()], sample standard deviation ([ddof = 1]). *)
Definition series_std (xs : list Z) : option R :=
  if Nat.leb (List.length xs) 1 then None
  else Some (sqrt (dev_products xs xs / (count xs - 1)))%R.

(** [Series.shift(1)] *)
Definition series_shift1 (xs : list Z) : list (option Z) :=
  match xs with
  | [] => []
  | _ :: _ => None :: map Some (removelast xs)
  end.

(** [numpy.cov] of two rows, one entry of the matrix. *)
Definition cov (a b : list Z) : R := (dev_products a b / (count a - 1))%R.

(** [numpy.corrcoef(a, b)[0, 1]]: the covariance divided by both standard
    deviations; a zero variance gives 0/0, NaN. *)
Definition corrcoef (a b : list Z) : option R :=
  if Req_dec_T (cov a a) 0%R then None
  else if Req_dec_T (cov b b) 0%R then None
  else Some (cov a b / sqrt (cov a a) / sqrt (cov b b))%R.

(** [Series.corr(other)], Pearson: pairs with a NaN are dropped first, and
    there must be at least [min_periods = 1] pairs left. *)
Definition series_corr (xs : list Z) (other : list (option Z)) : option R :=
  let valid := dropna (combine xs other) in
  if Nat.ltb (List.length valid) 1 then None
  else corrcoef (map fst valid) (map snd valid).

(** [Series.autocorr(lag=1)] *)
Definition autocorr1 (xs : list Z) : option R :=
  series_corr xs (series_shift1 xs).

Module Consistency.

Definition players (df : DataFrame) : DataFrame :=
  filter (fun r => negb (String.eqb (player r) TEAM)) df.

Definition team (df : DataFrame) : DataFrame :=
  filter (fun r => String.eqb (player r) TEAM) df.

Definition active_players_playing (df : DataFrame) : DataFrame :=
  filter (fun r => Bool.eqb (is_playing r) true) (players df).

Definition min_games : nat := 10.

Definition phase_dict : list (string * Z) :=
  [("REGULAR SEASON", 1); ("PLAYOFFS", 2)].

(** [active_players] after the autocorrelation cell has sorted it. *)
Definition active_players (df : DataFrame) : DataFrame :=
  sort_values phase_dict (active_players_playing df).

(** The group keys of [groupby('player')], sorted. *)
Definition group_keys (df : DataFrame) : list string :=
  sort_by String.compare (unique (map player df)).

(** [lambda x: x.autocorr(lag=1) if len(x) >= 10 else float('nan')] *)
Definition autocorr_or_nan (x : list Z) : option R :=
  if Nat.leb 10 (List.length x) then autocorr1 x else None.

(** [autocorr_points], after its [dropna()]. *)
Definition autocorr_points (df : DataFrame) : list (string * R) :=
  dropna
    (map (fun p => (p, autocorr_or_nan (map points (player_rows p (active_players df)))))
         (group_keys (active_players df))).

(** A row of [consistency_full]. *)
Record Stats : Type := mkStats {
  points_mean : option R;
  points_sd : option R;
  valuation_mean : option R;
  valuation_sd : option R;
  plus_minus_mean : option R;
  plus_minus_sd : option R;
  points_autocorr : option R
}.

(** Reading a frame indexed by player at one index label. *)
Fixpoint loc {V : Type} (p : string) (frame : list (string * V)) : option V :=
  match frame with
  | [] => None
  | (k, v) :: rest => if String.eqb k p then Some v else loc p rest
  end.

(** [groupby('player').agg({... : ['mean', 'std']})] at one group, followed
    by the assignment of the [points_autocorr] column, which aligns on the
    player index and leaves NaN where [autocorr_points] has no entry. *)
Definition agg_group (df : DataFrame) (p : string) : Stats :=
  let g := player_rows p (active_players df) in
  {| points_mean := series_mean (map points g);
     points_sd := series_std (map points g);
     valuation_mean := series_mean (map valuation g);
     valuation_sd := series_std (map valuation g);
     plus_minus_mean := series_mean (map plus_minus g);
     plus_minus_sd := series_std (map plus_minus g);
     points_autocorr := loc p (autocorr_points df) |}.

Definition group_size (df : DataFrame) (p : string) : nat :=
  List.length (player_rows p (active_players df)).

(** [consistency_full]: the groups with at least [min_games] rows. *)
Definition consistency_full (df : DataFrame) : list (string * Stats) :=
  map (fun p => (p, agg_group df p))
      (filter (fun p => Nat.leb min_games (group_size df p))
              (group_keys (active_players df))).

End Consistency.

(** ** Sample frames *)

(** A box-score row that satisfies the per-row invariants: [twos] two-point
    field goals made out of as many attempts, [reb] defensive rebounds,
    [fouls] fouls committed. *)
Definition box (g : string) (rnd : Z) (ph : string) (playing : bool)
    (who : string) (twos reb fouls secs : Z) : Row :=
  {| game := g; round := rnd; phase := ph;
     is_starter := false; is_playing := playing; player := who;
     minutes := "10:00";
     points := 2 * twos;
     two_points_made := twos; two_points_attempted := twos;
     three_points_made := 0; three_points_attempted := 0;
     free_throws_made := 0; free_throws_attempted := 0;
     offensive_rebounds := 0; defensive_rebounds := reb; total_rebounds := reb;
     assists := 0; steals := 0; turnovers := 0;
     blocks_favour := 0; blocks_against := 0;
     fouls_committed := fouls; fouls_received := 0;
     valuation := 2 * twos + reb - fouls;
     plus_minus := 0;
     total_seconds := secs |}.

Definition RS : string := "REGULAR SEASON".
Definition PO : string := "PLAYOFFS".

(** Two games whose fouls agree over the season but not game by game. *)
Definition df_fouls : DataFrame :=
  [ box "PAR-MAD" 1 RS true TEAM 0 0 3 600;
    box "PAR-MAD" 1 RS true "Punter Kevin" 0 0 2 600;
    box "OLY-PAR" 2 RS true TEAM 0 0 2 600;
    box "OLY-PAR" 2 RS true "Punter Kevin" 0 0 3 600 ].



(** The scenario of forty team rebounds against thirty-four player rebounds. *)
Definition df_unassigned : DataFrame :=
  [ box "PAR-MAD" 1 RS true TEAM 0 40 0 600;
    box "PAR-MAD" 1 RS true "Punter Kevin" 0 20 0 300;
    box "PAR-MAD" 1 RS true "Lessort Mathias" 0 14 0 300 ].

(** Two games under the code "MAD-PAR", round 10 of the regular season and
    round 35 in the playoffs; the team row has two points more than the player
    in the first and two points less in the second. *)
Definition df_shared_code : DataFrame :=
  [ box "MAD-PAR" 10 RS true TEAM 2 0 0 600;
    box "MAD-PAR" 10 RS true "Punter Kevin" 1 0 0 600;
    box "MAD-PAR" 35 PO true TEAM 1 0 0 600;
    box "MAD-PAR" 35 PO true "Punter Kevin" 2 0 0 600 ].


(** A schedule of eleven games with distinct codes, the last one in the
    playoffs, where the round numbers start again. *)
Definition schedule : list (string * Z * string) :=
  [ ("BER-PAR", 1, RS); ("BAS-PAR", 2, RS); ("PAR-MIL", 3, RS);
    ("PAR-VIR", 4, RS); ("PAR-ZAL", 5, RS); ("PAN-PAR", 6, RS);
    ("OLY-PAR", 7, RS); ("PAR-ASV", 8, RS); ("BAR-PAR", 9, RS);
    ("MAD-PAR", 10, RS); ("PAR-MAD", 2, PO) ].

(** The active rows of one player: one row for each game of the schedule,
    as long as there are entries in [twos], given in any frame order. *)
Definition season_of (who : string) (twos : list Z) : DataFrame :=
  map (fun gt => let '(g, rnd, ph, t) := gt in box g rnd ph true who t 0 0 600)
      (combine schedule twos).

(** Eleven games for one player, ten for another, three for a third, and
    the frame in reverse chronological order. *)
Definition df_season : DataFrame :=
  rev (season_of "Punter Kevin" [6; 13; 3; 5; 13; 14; 8; 9; 10; 7; 12])
  ++ rev (season_of "Lessort Mathias" [5; 6; 7; 4; 6; 8; 5; 6; 7; 6])
  ++ season_of "Madar Yam" [1; 2; 3].

(** Ten active games for one player, the last one a playoff game with the
    game code of round 9. *)
Definition df_rematch : DataFrame :=
  season_of "Exum Dante" [4; 7; 5; 9; 6; 3; 8; 7; 5]
  ++ [box "BAR-PAR" 1 PO true "Exum Dante" 6 0 0 600].

(** Eleven active games for one player, the last one a playoff game with
    the game code of round 10. *)
Definition df_rematch11 : DataFrame :=
  season_of "Exum Dante" [4; 7; 5; 9; 6; 3; 8; 7; 5; 6]
  ++ [box "MAD-PAR" 1 PO true "Exum Dante" 6 0 0 600].

(** Stand-ins for the scikit-learn calls: the first fifth of the rows is
    held out, the fitted model is the zero model, the scores are fixed. *)
Definition sk0 : Sklearn :=
  {| split_indices := fun n _ _ => (seq (n / 5) (n - n / 5), seq 0 (n / 5));
     linreg_fit := fun _ _ => mkLinModel 0%R [0%R; 0%R; 0%R; 0%R];
     linreg_predict := fun _ X => map (fun _ => 0%R) X;
     Forest := unit;
     rf_fit := fun _ _ _ _ => tt;
     rf_predict := fun _ X => map (fun _ => 0%R) X;
     feature_importances_ := fun _ => [1%R; 0%R; 0%R; 0%R];
     r2_score := fun _ _ => 0%R;
     mean_squared_error := fun _ _ => 4%R |}.

From Stdlib Require Import Zdiv Setoid Morphisms.

(** ** The cleaning notebook *)

Module Cleaning.

(** *** [int(s)] and [s.split(':')] on ASCII strings *)

(** [s.split(sep)] for a separator of one character. *)
Fixpoint split_on (sep : ascii) (s : string) : list string :=
  match s with
  | EmptyString => [EmptyString]
  | String c rest =>
      if Ascii.eqb c sep then EmptyString :: split_on sep rest
      else match split_on sep rest with
           | [] => [String c EmptyString]
           | w :: ws => String c w :: ws
           end
  end.

(** Tab, line feed, vertical tab, form feed, carriage return and space. *)
Definition is_space (c : ascii) : bool :=
  (Nat.leb 9 (nat_of_ascii c) && Nat.leb (nat_of_ascii c) 13)
  || Nat.eqb (nat_of_ascii c) 32.

Definition is_digit (c : ascii) : bool :=
  Nat.leb 48 (nat_of_ascii c) && Nat.leb (nat_of_ascii c) 57.

Definition digit_value (c : ascii) : Z := Z.of_nat (nat_of_ascii c) - 48.

Fixpoint lstrip (s : string) : string :=
  match s with
  | String c rest => if is_space c then lstrip rest else s
  | EmptyString => s
  end.

Fixpoint all_space (s : string) : bool :=
  match s with
  | String c rest => is_space c && all_space rest
  | EmptyString => true
  end.

(** The digits of a literal, up to the first character that is neither a
    digit nor an underscore. An underscore may only stand between two digits:
    [prev_underscore] tells that the character just read was one. *)
Fixpoint scan (prev_underscore : bool) (s : string) : option (list ascii * string) :=
  match s with
  | String c rest =>
      if is_digit c then
        match scan false rest with
        | Some (ds, tail) => Some (c :: ds, tail)
        | None => None
        end
      else if Ascii.eqb c "_" then
        if prev_underscore then None else scan true rest
      else if prev_underscore then None else Some ([], s)
  | EmptyString => if prev_underscore then None else Some ([], s)
  end.

Definition digits_value (ds : list ascii) : Z :=
  fold_left (fun acc c => 10 * acc + digit_value c) ds 0.

(** The default of [sys.get_int_max_str_digits()]: a longer literal is
    refused with ValueError. *)
Definition max_str_digits : nat := 4300.

(** [int(s)] in base 10 for an ASCII string; [None] is ValueError. Leading
    and trailing whitespace is skipped, one sign is allowed, the digits may be
    separated by single underscores. *)
Definition py_int (s : string) : option Z :=
  let s1 := lstrip s in
  let '(negative, s2) :=
    match s1 with
    | String c rest =>
        if Ascii.eqb c "+" then (false, rest)
        else if Ascii.eqb c "-" then (true, rest)
        else (false, s1)
    | EmptyString => (false, s1)
    end in
  match s2 with
  | String c _ =>
      if Ascii.eqb c "_" then None
      else
        match scan false s2 with
        | Some (ds, tail) =>
            if Nat.eqb (List.length ds) 0 then None
            else if Nat.ltb max_str_digits (List.length ds) then None
            else if all_space tail
                 then Some (if negative then - digits_value ds else digits_value ds)
                 else None
        | None => None
        end
  | EmptyString => None
  end.

(** *** The [minutes] column *)

(** The function applied to the [minutes] column. Unpacking anything but
    two fields and a field that [int] refuses both raise ValueError, which the
    function turns into [None]. *)
Definition mm_ss_to_seconds (time_str : string) : option Z :=
  match split_on ":" time_str with
  | [m; s] =>
      match py_int m, py_int s with
      | Some minutes, Some seconds => Some (minutes * 60 + seconds)
      | _, _ => None
      end
  | _ => None
  end.

(** [series.replace(old, pd.NA)] at one cell; a missing cell is [None]. *)
Definition replace_with_na (old : string) (cell : option string) : option string :=
  match cell with
  | Some s => if String.eqb s old then None else cell
  | None => None
  end.

(** [series.fillna(value)] at one cell. *)
Definition fillna (value : string) (cell : option string) : string :=
  match cell with
  | Some s => s
  | None => value
  end.

(** The [minutes] cell after the three assignments of the notebook. *)
Definition minutes_filled (cell : option string) : string :=
  fillna "00:00" (replace_with_na "DNP" (replace_with_na EmptyString cell)).

(** The [total_seconds] cell computed from a raw [minutes] cell. *)
Definition total_seconds_of (cell : option string) : option Z :=
  mm_ss_to_seconds (minutes_filled cell).

(** *** The [player] column *)

Definition player_names : list (string * string) :=
  [ ("MADAR, YAM", "Madar Yam");
    ("LEDAY, ZACH", "Leday Zach");
    ("TRIFUNOVIC, UROS", "Trifunovic Uros");
    ("NUNNALLY, JAMES WILLIAM", "Nunnally James");
    ("ANDUSIC, DANILO", "Andjusic Danilo");
    ("EXUM, DANTE LIMAN", "Exum Dante");
    ("LESSORT, MATHIAS", "Lessort Mathias");
    ("PAPAPETROU, IOANNIS", "Papapetrou Ioannis");
    ("PUNTER, KEVIN  XAVIER", "Punter Kevin");
    ("VUKCEVIC, TRISTAN", "Vukcevic Tristan");
    ("SMAILAGIC, ALEN", "Smailagic Alen");
    ("AVRAMOVIC, ALEKSA", "Avramovic Aleksa");
    ("GLAS, GREGOR", "Glas Gregor");
    ("KOPRIVICA, BALSA", "Koprivica Balsa");
    ("BRODZIANSKY, VLADIMIR", "Brodziansky Vladimir");
    ("JOVANOVIC, DORDIJE", "Jovanovic Dordje") ].

Fixpoint dict_find (d : list (string * string)) (k : string) : option string :=
  match d with
  | [] => None
  | (k', v) :: rest => if String.eqb k k' then Some v else dict_find rest k
  end.

(** [series.replace(dict)] at one cell: a value that is a key is replaced,
    any other value is kept. *)
Definition replace_player (name : string) : string :=
  match dict_find player_names name with
  | Some v => v
  | None => name
  end.

(** *** Cells that look at whole rows

    These cells read two or three columns of the frame; they are modelled for
    any type of rows with these columns. *)

(** What a cell prints: a line of text or a frame. *)
Inductive shown (row : Type) : Type :=
| Text (s : string)
| Frame (rows : list row).

Arguments Text {row} s.
Arguments Frame {row} rows.

Section Rows.
Context {row : Type}.
Variables (game : row -> string) (round : row -> Z) (player : row -> string).
Variables (total_seconds : row -> option Z) (is_playing : row -> bool).

Definition same_key (a b : row) : bool :=
  String.eqb (game a) (game b) && (round a =? round b)
  && String.eqb (player a) (player b).

(** [df.duplicated(subset=['game', 'round', 'player'], keep=False)] *)
Definition duplicated_keep_false (df : list row) : list bool :=
  map (fun r => Nat.leb 2 (List.length (filter (same_key r) df))) df.

(** [df[mask]] *)
Fixpoint select (df : list row) (mask : list bool) : list row :=
  match df, mask with
  | r :: rest, b :: bs => if b then r :: select rest bs else select rest bs
  | _, _ => []
  end.

Definition duplicates (df : list row) : list row :=
  select df (duplicated_keep_false df).

(** [total_seconds == 0] and [total_seconds != 0] on a column that holds
    NaN where the conversion failed. *)
Definition is_zero (x : option Z) : bool :=
  match x with Some z => z =? 0 | None => false end.

Definition inconsistencies_is_playing_true (df : list row) : list row :=
  filter (fun r => is_zero (total_seconds r) && Bool.eqb (is_playing r) true) df.

Definition inconsistencies_is_playing_false (df : list row) : list row :=
  filter (fun r => negb (is_zero (total_seconds r)) && Bool.eqb (is_playing r) false) df.

Definition is_empty (df : list row) : bool :=
  match df with [] => true | _ :: _ => false end.

Definition reason : string :=
  "Reason: this behavior is consequence of foul committed on the bench or a technical foul".

Definition check_inconsistencies (df : list row) : run (shown row) unit :=
  let played := inconsistencies_is_playing_true df in
  let sat := inconsistencies_is_playing_false df in
  (if is_empty played && is_empty sat
   then print (Text "No inconsistencies found") else ret tt) ;;;
  (if negb (is_empty played)
   then print (Frame played) ;;; print (Text reason) else ret tt) ;;;
  (if negb (is_empty sat)
   then print (Frame sat) ;;; print (Text reason) else ret tt).
End Rows.

End Cleaning.

(** *** Words used to state what the cleaning cells do *)

(** How often a character occurs in a string. *)
Fixpoint count_char (c : ascii) (s : string) : nat :=
  match s with
  | EmptyString => 0
  | String c' rest => (if Ascii.eqb c' c then 1 else 0) + count_char c rest
  end.

(** A string of decimal digits. *)
Definition all_digits (ds : list ascii) : Prop :=
  Forall (fun c => Cleaning.is_digit c = true) ds.

(** The three columns that identify a row of the raw frame. *)
Definition row_key {row : Type} (game : row -> string) (round : row -> Z)
    (player : row -> string) (r : row) : string * Z * string :=
  (game r, round r, player r).

(** A row is consistent when it is marked as playing exactly if it has
    playing time; a failed conversion (NaN) counts as playing time. *)
Definition consistent {row : Type} (total_seconds : row -> option Z)
    (is_playing : row -> bool) (r : row) : Prop :=
  is_playing r = true <-> total_seconds r <> Some 0.

(** ** The other cells of the data-validation notebook *)

(** Arithmetic on int64 values. *)
Definition add64 (a b : Z) : Z := wrap64 (a + b).
Definition sub64 (a b : Z) : Z := wrap64 (a - b).
Definition mul64 (a b : Z) : Z := wrap64 (a * b).

(** Two integers are the same int64 value. *)
Definition eq64 (a b : Z) : Prop := eqm (2 ^ 64) a b.

Module ValidationCells.
Import Validation.

(** *** Rebound totals against their split *)

Definition calculated_total_rebounds (r : Row) : Z :=
  add64 (offensive_rebounds r) (defensive_rebounds r).

Definition inconsistent_rebounds (df : DataFrame) : DataFrame :=
  filter (fun r => negb (total_rebounds r =? calculated_total_rebounds r)) df.

Definition msg_rebounds_consistent : string :=
  "Rebound totals consistent with offensive/defensive splits.".

Definition rebounds_cell (df : DataFrame) : run string unit :=
  match inconsistent_rebounds df with
  | _ :: _ => print "Rebound totals inconsistent with offensive/defensive splits!"
  | [] => print msg_rebounds_consistent
  end.

(** *** Field goals *)

Definition field_goal_points (r : Row) : Z :=
  add64 (mul64 (two_points_made r) 2) (mul64 (three_points_made r) 3).

Definition points_minus_ft (r : Row) : Z :=
  sub64 (points r) (free_throws_made r).

Definition player_errors (df : DataFrame) : DataFrame :=
  filter (fun r => negb (field_goal_points r =? points_minus_ft r))
         (partizan_players df).

(** The "team" side of the check is computed from the player rows as well;
    only the points come from the team rows. *)
Definition team_field_goal_points (df : DataFrame) : Z :=
  add64 (mul64 (col_sum two_points_made (partizan_players df)) 2)
        (mul64 (col_sum three_points_made (partizan_players df)) 3).

Definition team_points_minus_ft (df : DataFrame) : Z :=
  sub64 (col_sum points (partizan_team df))
        (col_sum free_throws_made (partizan_players df)).

Definition team_discrepancy (df : DataFrame) : Z :=
  sub64 (team_field_goal_points df) (team_points_minus_ft df).

(** The columns of [player_errors] that are printed. *)
Definition error_columns (r : Row) : string * Z * Z * Z * Z :=
  (player r, points r, two_points_made r, three_points_made r, free_throws_made r).

Definition msg_field_goals_ok : string :=
  "Field goals are accurate for all players and team totals.".

Definition validate_field_goals (df : DataFrame)
    : run (Cleaning.shown (string * Z * Z * Z * Z)) unit :=
  let errors := player_errors df in
  let discrepancy := team_discrepancy df in
  if Cleaning.is_empty errors && (discrepancy =? 0) then
    print (Cleaning.Text msg_field_goals_ok)
  else
    (if negb (Cleaning.is_empty errors) then
       print (Cleaning.Text "Player field goal discrepancies found:") ;;;
       print (Cleaning.Frame (map error_columns errors))
     else ret tt) ;;;
    (if negb (discrepancy =? 0) then
       print (Cleaning.Text
                ("Team field goals mismatch: Expected "
                 +++ str_of_Z (team_field_goal_points df)
                 +++ ", got " +++ str_of_Z (team_points_minus_ft df)
                 +++ " (difference: " +++ str_of_Z discrepancy +++ ")."))
     else ret tt).

(** *** Valuation (PIR) *)

Definition missed_field_goals (r : Row) : Z :=
  add64 (sub64 (two_points_attempted r) (two_points_made r))
        (sub64 (three_points_attempted r) (three_points_made r)).

Definition missed_free_throws (r : Row) : Z :=
  sub64 (free_throws_attempted r) (free_throws_made r).

Definition expected_valuation (r : Row) : Z :=
  sub64
    (add64 (add64 (add64 (add64 (add64 (points r) (total_rebounds r))
                                (assists r))
                         (steals r))
                  (blocks_favour r))
           (fouls_received r))
    (add64 (add64 (add64 (add64 (missed_field_goals r) (missed_free_throws r))
                         (turnovers r))
                  (blocks_against r))
           (fouls_committed r)).

(** [(frame['valuation'] == expected).all()] *)
Definition valuation_holds (frame : DataFrame) : bool :=
  forallb (fun r => valuation r =? expected_valuation r) frame.

Definition validate_valuation (df : DataFrame) : run string unit :=
  (if valuation_holds (partizan_players df)
   then print "Valuation is accurate for all players."
   else print "Player valuation mismatch detected!") ;;;
  (if valuation_holds (partizan_team df)
   then print "Valuation is accurate for the team."
   else print "Team valuation mismatch detected!").

End ValidationCells.

(** The index rating of a frame computed on exact column sums. *)
Definition pir_of_sums (frame : DataFrame) : Z :=
  let total col := Zsum (map col frame) in
  total points + total total_rebounds + total assists + total steals
  + total blocks_favour + total fouls_received
  - ((total two_points_attempted - total two_points_made)
     + (total three_points_attempted - total three_points_made)
     + (total free_throws_attempted - total free_throws_made)
     + total turnovers + total blocks_against + total fouls_committed).

(** A team row with four points and no made shot, next to a player row
    that is in order. *)
Definition df_team_shots : DataFrame :=
  [ {| game := "PAR-MAD"; round := 1; phase := RS;
       is_starter := false; is_playing := true; player := TEAM;
       minutes := "200:00";
       points := 4;
       two_points_made := 0; two_points_attempted := 0;
       three_points_made := 0; three_points_attempted := 0;
       free_throws_made := 0; free_throws_attempted := 0;
       offensive_rebounds := 0; defensive_rebounds := 0; total_rebounds := 0;
       assists := 0; steals := 0; turnovers := 0;
       blocks_favour := 0; blocks_against := 0;
       fouls_committed := 0; fouls_received := 0;
       valuation := 4;
       plus_minus := 0;
       total_seconds := 600 |};
    box "PAR-MAD" 1 RS true "Punter Kevin" 2 0 0 600 ].

(** Two games whose points differ game by game, in opposite directions. *)
Definition df_points_swapped : DataFrame :=
  [ box "PAR-MAD" 1 RS true TEAM 2 0 0 600;
    box "PAR-MAD" 1 RS true "Punter Kevin" 1 0 0 600;
    box "OLY-PAR" 2 RS true TEAM 1 0 0 600;
    box "OLY-PAR" 2 RS true "Punter Kevin" 2 0 0 600 ].

(** ** The first tables of the consistency notebook

    [consistency_stats] and [consistency_stats_with_means] are built before
    the autocorrelation cell sorts [active_players]: their groups are the
    rows of a player in the order of the data file. The lines that print the
    five first rows of each table under some ordering are not modelled. *)

Module ConsistencyTables.
Import Consistency.

(** [active_players.groupby('player').size()] at one player. *)
Definition size (df : DataFrame) (p : string) : nat :=
  List.length (player_rows p (active_players_playing df)).

(** A row of [consistency_stats]. *)
Record SdRow : Type := mkSdRow {
  points_sd : option R;
  valuation_sd : option R;
  plus_minus_sd : option R
}.

Definition consistency_stats (df : DataFrame) : list (string * SdRow) :=
  map (fun p =>
         let g := player_rows p (active_players_playing df) in
         (p, {| points_sd := series_std (map points g);
                valuation_sd := series_std (map valuation g);
                plus_minus_sd := series_std (map plus_minus g) |}))
      (filter (fun p => Nat.leb min_games (size df p))
              (group_keys (active_players_playing df))).

(** A row of [consistency_stats_with_means], columns in the order of the
    assignment to [columns]. *)
Definition MeansRow : Type :=
  (option R * option R * option R * option R * option R * option R)%type.

Definition agg_mean_std (g : DataFrame) : MeansRow :=
  (series_mean (map points g), series_std (map points g),
   series_mean (map valuation g), series_std (map valuation g),
   series_mean (map plus_minus g), series_std (map plus_minus g)).

Definition consistency_stats_with_means (df : DataFrame) : list (string * MeansRow) :=
  map (fun p => (p, agg_mean_std (player_rows p (active_players_playing df))))
      (filter (fun p => Nat.leb min_games (size df p))
              (group_keys (active_players_playing df))).

End ConsistencyTables.

(** The six mean and deviation columns of a row of [consistency_full]. *)
Definition means_and_sds (st : Consistency.Stats)
    : option R * option R * option R * option R * option R * option R :=
  (Consistency.points_mean st, Consistency.points_sd st,
   Consistency.valuation_mean st, Consistency.valuation_sd st,
   Consistency.plus_minus_mean st, Consistency.plus_minus_sd st).

(** The three deviation columns of a row of [consistency_full]. *)
Definition sds (st : Consistency.Stats) : ConsistencyTables.SdRow :=
  {| ConsistencyTables.points_sd := Consistency.points_sd st;
     ConsistencyTables.valuation_sd := Consistency.valuation_sd st;
     ConsistencyTables.plus_minus_sd := Consistency.plus_minus_sd st |}.

(** Ten games with six points in each. *)
Definition df_constant : DataFrame :=
  season_of "Vukcevic Tristan" [3; 3; 3; 3; 3; 3; 3; 3; 3; 3].

(** * Properties *)

(** ** The output monad *)

Lemma raises_bind {L A B} (m : run L A) (k : A -> run L B) :
  raises m = false -> (forall a, raises (k a) = false) ->
  raises (bind m k) = false.
Proof.
  intros Hm Hk. destruct m as [a out | e out]; simpl in *; [|discriminate].
  specialize (Hk a). destruct (k a); simpl in *; congruence.
Qed.

Lemma stdout_bind {L A B} (m : run L A) (k : A -> run L B) a out :
  m = Done a out -> stdout (bind m k) = out ++ stdout (k a).
Proof.
  intros ->. simpl. destruct (k a); reflexivity.
Qed.

Lemma bind_Done {L A B} (m : run L A) (k : A -> run L B) a out b out' :
  m = Done a out -> k a = Done b out' -> bind m k = Done b (out ++ out').
Proof.
  intros -> Hk. simpl. rewrite Hk. reflexivity.
Qed.

Lemma unit_run_Done {L} (m : run L unit) : raises m = false -> m = Done tt (stdout m).
Proof. destruct m as [[] out|e out]; simpl; [reflexivity|discriminate]. Qed.

(** ** Lists of column values *)

Lemma In_unique_from (x : string) (l seen : list string) :
  In x (unique_from seen l) <-> In x l /\ ~ In x seen.
Proof.
  revert seen. induction l as [|y l IH]; intros seen; simpl.
  - tauto.
  - destruct (existsb (String.eqb y) seen) eqn:E.
    + rewrite IH. apply existsb_exists in E. destruct E as [z [Hz Hyz]].
      apply String.eqb_eq in Hyz. subst z.
      split; [tauto|]. intros [[->|H] Hn]; [contradiction|tauto].
    + simpl. rewrite IH. simpl.
      assert (Hy : ~ In y seen).
      { intros Hy. assert (existsb (String.eqb y) seen = true); [|congruence].
        apply existsb_exists. exists y. split; [assumption|apply String.eqb_refl]. }
      destruct (string_dec y x) as [->|Hne]; [tauto|]. tauto.
Qed.

Lemma In_unique (x : string) (l : list string) : In x (unique l) <-> In x l.
Proof. unfold unique. rewrite In_unique_from. simpl. tauto. Qed.



(** ** Three-way comparisons *)

Section CmpFacts.
Context {A : Type} (cmp : A -> A -> comparison) (laws : CmpLaws cmp).

Lemma cmp_refl a : cmp a a = Eq.
Proof.
  pose proof (cmp_antisym cmp laws a a) as H. destruct (cmp a a); simpl in H; congruence.
Qed.

Lemma cmp_eq_sym a b : cmp a b = Eq -> cmp b a = Eq.
Proof. intros H. rewrite (cmp_antisym cmp laws), H. reflexivity. Qed.

Lemma cmp_eq_subst_r a b c : cmp b c = Eq -> cmp a b = cmp a c.
Proof.
  intros H. rewrite (cmp_antisym cmp laws b a), (cmp_antisym cmp laws c a).
  f_equal. apply (cmp_eq_subst cmp laws). assumption.
Qed.

Lemma leb_of_total a b : leb_of cmp a b = true \/ leb_of cmp b a = true.
Proof.
  unfold leb_of. rewrite (cmp_antisym cmp laws a b).
  destruct (cmp a b); simpl; auto.
Qed.

Lemma leb_of_trans a b c :
  leb_of cmp a b = true -> leb_of cmp b c = true -> leb_of cmp a c = true.
Proof.
  unfold leb_of. intros Hab Hbc.
  destruct (cmp a b) eqn:Eab; try discriminate.
  - rewrite (cmp_eq_subst cmp laws a b c Eab). assumption.
  - destruct (cmp b c) eqn:Ebc; try discriminate.
    + rewrite <- (cmp_eq_subst_r a b c Ebc), Eab. reflexivity.
    + rewrite (cmp_lt_trans cmp laws a b c Eab Ebc). reflexivity.
Qed.

Lemma leb_of_false a b : leb_of cmp a b = false -> leb_of cmp b a = true.
Proof. intros H. destruct (leb_of_total a b); congruence. Qed.
End CmpFacts.

Lemma lex_laws {A : Type} (c1 c2 : A -> A -> comparison) :
  CmpLaws c1 -> CmpLaws c2 -> CmpLaws (lex c1 c2).
Proof.
  intros L1 L2. split; unfold lex.
  - intros a b. rewrite (cmp_antisym c1 L1 a b).
    destruct (c1 a b); simpl; auto. apply (cmp_antisym c2 L2).
  - intros a b c.
    destruct (c1 a b) eqn:Eab; try discriminate.
    + rewrite (cmp_eq_subst c1 L1 a b c Eab).
      destruct (c1 b c) eqn:Ebc; try discriminate; auto.
      apply (cmp_lt_trans c2 L2).
    + intros _. destruct (c1 b c) eqn:Ebc; try discriminate.
      * rewrite <- (cmp_eq_subst_r c1 L1 a b c Ebc), Eab. reflexivity.
      * rewrite (cmp_lt_trans c1 L1 a b c Eab Ebc). reflexivity.
  - intros a b c.
    destruct (c1 a b) eqn:Eab; try discriminate.
    rewrite (cmp_eq_subst c1 L1 a b c Eab).
    intros H. destruct (c1 b c); auto. apply (cmp_eq_subst c2 L2). assumption.
Qed.

(** Comparing through a key keeps the laws. *)
Lemma on_key_laws {A K : Type} (key : A -> K) (c : K -> K -> comparison) :
  CmpLaws c -> CmpLaws (fun a b => c (key a) (key b)).
Proof.
  intros L. split; intros.
  - apply (cmp_antisym c L).
  - eapply (cmp_lt_trans c L); eassumption.
  - apply (cmp_eq_subst c L). assumption.
Qed.

Lemma Z_compare_laws : CmpLaws Z.compare.
Proof.
  split.
  - intros a b. apply Z.compare_antisym.
  - intros a b c. rewrite !Z.compare_lt_iff. lia.
  - intros a b c H. apply Z.compare_eq in H. subst. reflexivity.
Qed.

Lemma string_compare_laws : CmpLaws String.compare.
Proof.
  split.
  - intros a b. apply String.compare_antisym.
  - intros a b c Hab Hbc. apply String_as_OT.cmp_lt.
    apply String_as_OT.cmp_lt in Hab. apply String_as_OT.cmp_lt in Hbc.
    eapply String_as_OT.lt_trans; eassumption.
  - intros a b c H. apply String.compare_eq_iff in H. subst. reflexivity.
Qed.

Lemma nan_last_laws : CmpLaws nan_last_compare.
Proof.
  split.
  - intros [a|] [b|]; simpl; auto. apply Z.compare_antisym.
  - intros [a|] [b|] [c|]; simpl; try discriminate; auto.
    apply (cmp_lt_trans _ Z_compare_laws).
  - intros [a|] [b|] [c|]; simpl; try discriminate; auto;
      intros H; apply Z.compare_eq in H; subst; reflexivity.
Qed.

Lemma totalOrder_laws d : CmpLaws (totalOrder_compare d).
Proof.
  unfold totalOrder_compare. apply lex_laws.
  - apply (on_key_laws (phase_order d)), nan_last_laws.
  - apply (on_key_laws round), Z_compare_laws.
Qed.

Lemma sort_key_laws d : CmpLaws (sort_key_compare d).
Proof.
  unfold sort_key_compare. apply lex_laws.
  - apply (on_key_laws player), string_compare_laws.
  - apply totalOrder_laws.
Qed.

(** ** The stable sort *)

Section SortFacts.
Context {A : Type} (cmp : A -> A -> comparison) (laws : CmpLaws cmp).

Lemma insert_by_perm x l : Permutation (x :: l) (insert_by cmp x l).
Proof.
  induction l as [|y l IH]; simpl; [reflexivity|].
  destruct (leb_of cmp x y); [reflexivity|].
  rewrite perm_swap. apply perm_skip. assumption.
Qed.

Lemma sort_by_perm l : Permutation l (sort_by cmp l).
Proof.
  induction l as [|x l IH]; simpl; [reflexivity|].
  rewrite <- insert_by_perm. apply perm_skip. assumption.
Qed.

Lemma insert_by_sorted x l :
  StronglySorted (fun a b => leb_of cmp a b = true) l ->
  StronglySorted (fun a b => leb_of cmp a b = true) (insert_by cmp x l).
Proof.
  induction 1 as [|y l Hl IH Hy]; simpl.
  - repeat constructor.
  - destruct (leb_of cmp x y) eqn:E.
    + constructor; [constructor; assumption|].
      constructor; [exact E|].
      eapply Forall_impl; [|exact Hy].
      intros z Hz. eapply (leb_of_trans cmp laws); eassumption.
    + constructor; [assumption|].
      rewrite <- (insert_by_perm x l).
      constructor; [|assumption].
      apply (leb_of_false cmp laws). assumption.
Qed.

Lemma sort_by_sorted l :
  StronglySorted (fun a b => leb_of cmp a b = true) (sort_by cmp l).
Proof.
  induction l as [|x l IH]; simpl; [constructor|].
  apply insert_by_sorted. assumption.
Qed.
End SortFacts.

Lemma StronglySorted_filter {A : Type} (R : A -> A -> Prop) (f : A -> bool) l :
  StronglySorted R l -> StronglySorted R (filter f l).
Proof.
  induction 1 as [|x l Hl IH Hx]; simpl; [constructor|].
  destruct (f x); [|assumption].
  constructor; [assumption|].
  apply Forall_forall. intros y Hy. apply filter_In in Hy.
  rewrite Forall_forall in Hx. apply Hx. tauto.
Qed.

Lemma StronglySorted_impl_In {A : Type} (R S : A -> A -> Prop) l :
  (forall a b, In a l -> In b l -> R a b -> S a b) ->
  StronglySorted R l -> StronglySorted S l.
Proof.
  intros H Hs. induction Hs as [|x l Hl IH Hx]; [constructor|].
  constructor.
  - apply IH. intros a b Ha Hb. apply H; simpl; auto.
  - rewrite Forall_forall in *. intros y Hy. apply H; simpl; auto.
Qed.

Lemma filter_perm {A : Type} (f : A -> bool) l l' :
  Permutation l l' -> Permutation (filter f l) (filter f l').
Proof.
  induction 1; simpl.
  - constructor.
  - destruct (f x); [apply perm_skip|]; assumption.
  - destruct (f x), (f y); try reflexivity. apply perm_swap.
  - etransitivity; eassumption.
Qed.

(** The rows of one player in a sorted frame are in chronological order
    and are the rows the player had before the sort. *)
Lemma player_rows_sort_values_perm d p df :
  Permutation (player_rows p df) (player_rows p (sort_values d df)).
Proof.
  apply filter_perm, sort_by_perm.
Qed.

Lemma player_rows_sort_values_sorted d p df :
  StronglySorted (fun a b => leb_of (totalOrder_compare d) a b = true)
                 (player_rows p (sort_values d df)).
Proof.
  unfold player_rows.
  eapply StronglySorted_impl_In;
    [|apply StronglySorted_filter, (sort_by_sorted _ (sort_key_laws d))].
  intros a b Ha Hb. apply filter_In in Ha, Hb.
  destruct Ha as [_ Ha], Hb as [_ Hb].
  apply String.eqb_eq in Ha, Hb.
  unfold leb_of, sort_key_compare, lex. rewrite Ha, Hb.
  rewrite (cmp_refl _ string_compare_laws). auto.
Qed.

Lemma player_rows_length_sort_values d p df :
  List.length (player_rows p (sort_values d df)) = List.length (player_rows p df).
Proof.
  symmetry. apply Permutation_length, player_rows_sort_values_perm.
Qed.

(** ** The chronological order *)

Lemma precedes_irrefl d a : ~ precedes d a a.
Proof.
  unfold precedes. rewrite (cmp_refl _ (totalOrder_laws d)). discriminate.
Qed.

Lemma precedes_trans d a b c : precedes d a b -> precedes d b c -> precedes d a c.
Proof. apply (cmp_lt_trans _ (totalOrder_laws d)). Qed.

Lemma nan_last_compare_eq a b : nan_last_compare a b = Eq -> a = b.
Proof.
  destruct a, b; simpl; try discriminate; auto.
  intros H. apply Z.compare_eq in H. congruence.
Qed.

Lemma totalOrder_compare_eq d a b :
  totalOrder_compare d a b = Eq <-> totalOrder d a = totalOrder d b.
Proof.
  unfold totalOrder_compare, lex, totalOrder. split.
  - destruct (nan_last_compare (phase_order d a) (phase_order d b)) eqn:E;
      try discriminate.
    intros H. apply nan_last_compare_eq in E. apply Z.compare_eq in H. congruence.
  - intros H. injection H as H1 H2. rewrite H1, H2.
    rewrite (cmp_refl _ nan_last_laws). apply Z.compare_refl.
Qed.

Lemma precedes_trichotomy d a b :
  precedes d a b \/ totalOrder d a = totalOrder d b \/ precedes d b a.
Proof.
  unfold precedes. rewrite <- totalOrder_compare_eq.
  rewrite (cmp_antisym _ (totalOrder_laws d) a b).
  destruct (totalOrder_compare d a b); simpl; auto.
Qed.

Lemma precedes_same_phase_order d a b :
  phase_order d a = phase_order d b -> (precedes d a b <-> round a < round b).
Proof.
  intros H. unfold precedes, totalOrder_compare, lex. rewrite H.
  rewrite (cmp_refl _ nan_last_laws). apply Z.compare_lt_iff.
Qed.

Lemma precedes_dict_agree a b :
  precedes Consistency.phase_dict a b <-> precedes Modeling.phase_dict a b.
Proof.
  unfold precedes, totalOrder_compare, lex, phase_order,
    Consistency.phase_dict, Modeling.phase_dict. simpl.
  destruct (String.eqb (phase a) "REGULAR SEASON"),
           (String.eqb (phase a) "PLAYOFFS"),
           (String.eqb (phase b) "REGULAR SEASON"),
           (String.eqb (phase b) "PLAYOFFS"); simpl; tauto.
Qed.

Lemma NoDup_map_inj {A B : Type} (f : A -> B) (l : list A) a b :
  NoDup (map f l) -> In a l -> In b l -> f a = f b -> a = b.
Proof.
  induction l as [|x l IH]; simpl; [contradiction|].
  intros Hnd Ha Hb E. inversion Hnd as [|? ? Hx Hl]; subst.
  destruct Ha as [->|Ha], Hb as [->|Hb]; auto.
  - exfalso. apply Hx. rewrite E. apply in_map. assumption.
  - exfalso. apply Hx. rewrite <- E. apply in_map. assumption.
Qed.

(** C3. The chronological order of both notebooks, phase first and round
    second, is a strict order in which any two records either have the same
    key (phase rank, round) or are ordered one way or the other, so that it is
    total on the records of a player, no two of which share phase and round; a
    regular-season record precedes a playoff record whatever the two rounds
    are, records of one phase are ordered by ascending round, and after
    [sort_values] the rows of each player stand in this order. *)
Theorem totalOrder_strict_total_phase_dominant :
  let before := precedes Modeling.phase_dict in
  (forall a, ~ before a a)
  /\ (forall a b c, before a b -> before b c -> before a c)
  /\ (forall a b,
        before a b
        \/ totalOrder Modeling.phase_dict a = totalOrder Modeling.phase_dict b
        \/ before b a)
  /\ (forall df p a b,
        NoDup (map (totalOrder Modeling.phase_dict) (player_rows p df)) ->
        In a (player_rows p df) -> In b (player_rows p df) ->
        before a b \/ a = b \/ before b a)
  /\ (forall a b, phase a = "REGULAR SEASON" -> phase b = "PLAYOFFS" -> before a b)
  /\ (forall a b, phase a = phase b -> (before a b <-> round a < round b))
  /\ (forall a b, precedes Consistency.phase_dict a b <-> before a b)
  /\ (forall df p,
        StronglySorted (fun a b => ~ before b a)
          (player_rows p (sort_values Modeling.phase_dict df))
        /\ StronglySorted (fun a b => ~ before b a)
          (player_rows p (sort_values Consistency.phase_dict df))
        /\ Permutation (player_rows p df)
             (player_rows p (sort_values Modeling.phase_dict df))).
Proof.
  cbv zeta. repeat split.
  - apply precedes_irrefl.
  - apply precedes_trans.
  - apply precedes_trichotomy.
  - intros df p a b Hnd Ha Hb.
    destruct (precedes_trichotomy Modeling.phase_dict a b) as [H|[H|H]]; auto.
    right. left. eapply NoDup_map_inj; eassumption.
  - intros a b Ha Hb. unfold precedes, totalOrder_compare, lex, phase_order.
    rewrite Ha, Hb. reflexivity.
  - apply precedes_same_phase_order. unfold phase_order. congruence.
  - apply precedes_same_phase_order. unfold phase_order. congruence.
  - apply precedes_dict_agree.
  - apply precedes_dict_agree.
  - eapply StronglySorted_impl_In; [|apply player_rows_sort_values_sorted].
    intros a b _ _ Hle Hlt. unfold precedes in Hlt. unfold leb_of in Hle.
    rewrite (cmp_antisym _ (totalOrder_laws _) b a), Hlt in Hle. discriminate.
  - eapply StronglySorted_impl_In; [|apply player_rows_sort_values_sorted].
    intros a b _ _ Hle Hlt. apply precedes_dict_agree in Hlt.
    unfold precedes in Hlt. unfold leb_of in Hle.
    rewrite (cmp_antisym _ (totalOrder_laws _) b a), Hlt in Hle. discriminate.
  - apply player_rows_sort_values_perm.
Qed.

(** Round 5 of the regular season comes before round 1 of the playoffs, and
    [sort_values] puts a player's playoff game after the ten regular-season
    games although its round number is 2. *)
Example regular_season_5_before_playoffs_1 :
  precedes Modeling.phase_dict
    (box "PAR-ZAL" 5 RS true "Punter Kevin" 13 0 0 600)
    (box "PAR-MAD" 1 PO true "Punter Kevin" 12 0 0 600)
  /\ map (fun r => (phase r, round r))
         (player_rows "Punter Kevin" (sort_values Modeling.phase_dict df_season))
     = [ (RS, 1); (RS, 2); (RS, 3); (RS, 4); (RS, 5); (RS, 6); (RS, 7); (RS, 8);
         (RS, 9); (RS, 10); (PO, 2) ].
Proof. split; reflexivity. Qed.

(** ** The lag feature *)

Lemma shift1_from_length seen df :
  List.length (shift1_from seen df) = List.length df.
Proof.
  revert seen. induction df as [|r df IH]; intros seen; simpl; auto.
Qed.

(** Restricted to one player, the grouped shift is the lag of that player's
    own series. *)
Lemma shift1_from_player p seen df :
  filter (of_player p) (combine df (shift1_from seen df))
  = combine (player_rows p df)
      (lag_from (option_map points (find (fun q => String.eqb (player q) p) seen))
                (player_rows p df)).
Proof.
  revert seen. induction df as [|r df IH]; intros seen; simpl; [reflexivity|].
  unfold of_player at 1. simpl.
  destruct (String.eqb (player r) p) eqn:E.
  - apply String.eqb_eq in E. simpl. rewrite E. f_equal.
    rewrite IH. simpl. rewrite E, String.eqb_refl. reflexivity.
  - rewrite IH. simpl. rewrite E. reflexivity.
Qed.

Lemma lag_from_length prev s : List.length (lag_from prev s) = List.length s.
Proof.
  revert prev. induction s as [|r s IH]; intros prev; simpl; auto.
Qed.


Lemma dropna_lag_Some prev s :
  dropna (combine s (lag_from (Some prev) s)) = with_previous prev s.
Proof.
  revert prev. induction s as [|r s IH]; intros prev; simpl; [reflexivity|].
  rewrite IH. reflexivity.
Qed.

Lemma dropna_lag_None s :
  dropna (combine s (lag_from None s)) = training_rows s.
Proof.
  destruct s as [|r s]; simpl; [reflexivity|]. apply dropna_lag_Some.
Qed.

Lemma with_previous_length prev s :
  List.length (with_previous prev s) = List.length s.
Proof.
  revert prev. induction s as [|r s IH]; intros prev; simpl; auto.
Qed.



Lemma dropna_filter {A B : Type} (f : A -> bool) (l : list (A * option B)) :
  filter (fun ab => f (fst ab)) (dropna l)
  = dropna (filter (fun ab => f (fst ab)) l).
Proof.
  induction l as [|[a [b|]] l IH]; simpl; auto.
  - destruct (f a); simpl; rewrite IH; reflexivity.
  - destruct (f a); simpl; rewrite IH; reflexivity.
Qed.

Module ModelingFacts.
Import Modeling.

Lemma lagged_series_eq df p :
  lagged_series df p = combine (series df p) (lag_from None (series df p)).
Proof.
  unfold lagged_series, active_players_lagged, groupby_player_points_shift1.
  rewrite shift1_from_player. reflexivity.
Qed.

Lemma pooled_eq df p :
  pooled df p = map add_context (training_rows (series df p)).
Proof.
  unfold pooled, active_players.
  rewrite <- dropna_lag_None, <- lagged_series_eq.
  unfold lagged_series, of_player.
  rewrite <- (dropna_filter (fun r => String.eqb (player r) p)).
  induction (dropna (active_players_lagged df)) as [|[r z] l IH]; simpl; [reflexivity|].
  destruct (String.eqb (player r) p); simpl; rewrite IH; reflexivity.
Qed.

End ModelingFacts.


Lemma player_rows_filter_by_player (f : string -> bool) p l :
  player_rows p (filter (fun r => f (player r)) l)
  = if f p then player_rows p l else [].
Proof.
  unfold player_rows. induction l as [|r l IH]; simpl.
  - destruct (f p); reflexivity.
  - destruct (String.eqb (player r) p) eqn:E.
    + pose proof E as E'. apply String.eqb_eq in E'. rewrite E'.
      destruct (f p) eqn:F; simpl.
      * rewrite E, IH. reflexivity.
      * exact IH.
    + destruct (f (player r)); simpl; [rewrite E|]; exact IH.
Qed.

Module LagFacts.
Import Modeling ModelingFacts.

Lemma series_eligible df p :
  player_rows p (active_players_eligible df)
  = if Nat.leb min_player_games (player_games df p)
    then player_rows p (active_players_playing df) else [].
Proof.
  unfold active_players_eligible.
  apply (player_rows_filter_by_player
           (fun q => Nat.leb min_player_games (player_games df q))).
Qed.

Lemma series_perm df p :
  Permutation (player_rows p (active_players_eligible df)) (series df p).
Proof. apply player_rows_sort_values_perm. Qed.


Lemma pooled_length df p :
  List.length (pooled df p) = pred (List.length (series df p)).
Proof.
  rewrite pooled_eq, length_map. destruct (series df p) as [|r s]; simpl; [reflexivity|].
  apply with_previous_length.
Qed.






End LagFacts.

(** ** The modelling cells *)

Module HarnessFacts.
Import Modeling ModelingFacts LagFacts.

Section WithSklearn.
Variable sk : Sklearn.

Lemma train_test_split_enough data :
  (2 <= List.length data)%nat -> train_test_split sk data = Done (split_rows sk data) [].
Proof.
  intros H. unfold train_test_split. apply Nat.ltb_ge in H. rewrite H. reflexivity.
Qed.

Lemma train_test_split_short data :
  (List.length data < 2)%nat -> train_test_split sk data = Raise "ValueError" [].
Proof.
  intros H. unfold train_test_split. apply Nat.ltb_lt in H. rewrite H. reflexivity.
Qed.

Lemma linear_cell_stdout data :
  (2 <= List.length data)%nat ->
  exists title intercept coefs,
    linear_cell sk data
    = Done tt [ [Str title]; [Str "Intercept:"; Flt intercept];
                [Str coef_label; Vec coefs];
                [Str "R-squared: "; Flt2 (fst (linear_scores sk data))];
                [Str "Mean Squared Error: "; Flt2 (snd (linear_scores sk data))] ].
Proof.
  intros H. unfold linear_cell, linear_scores.
  rewrite (train_test_split_enough data H). cbn [bind].
  destruct (split_rows sk data) as [train test]. simpl.
  eexists _, _, _. reflexivity.
Qed.

(** With fewer than two rows the split raises before anything is printed. *)
Lemma linear_cell_raises data :
  (List.length data < 2)%nat -> linear_cell sk data = Raise "ValueError" [].
Proof.
  intros H. unfold linear_cell. rewrite (train_test_split_short data H). reflexivity.
Qed.

Lemma forest_cell_stdout data :
  exists title importances,
    forest_cell sk data
    = Done tt [ [Str title];
                [Str "R-squared: "; Flt2 (fst (forest_scores sk data))];
                [Str "Mean Squared Error: "; Flt2 (snd (forest_scores sk data))];
                [Str "Feature Importance (total_seconds, points_previous_game, is_playoff, is_home):";
                 Vec importances] ].
Proof.
  unfold forest_cell, forest_scores.
  destruct (split_rows sk data) as [train test]. simpl.
  eexists _, _. reflexivity.
Qed.

Lemma train_player_model_short data p :
  (List.length (player_data data p) < 10)%nat ->
  train_player_model sk data p
  = Done tt [not_enough_line p (List.length (player_data data p))].
Proof.
  intros H. unfold train_player_model.
  apply Nat.ltb_lt in H. rewrite H. reflexivity.
Qed.

Lemma train_player_model_fit data p :
  (10 <= List.length (player_data data p))%nat ->
  exists title intercept coefs,
    train_player_model sk data p
    = Done tt [ [Str title; Str p; Str ":"]; [Str "Intercept:"; Flt intercept];
                [Str coef_label; Vec coefs];
                [Str "R-squared: "; Flt2 (fst (linear_scores sk (player_data data p)))];
                [Str "Mean Squared Error: ";
                 Flt2 (snd (linear_scores sk (player_data data p)))] ].
Proof.
  intros H. unfold train_player_model, linear_scores. cbv zeta.
  rewrite (train_test_split_enough (player_data data p)) by lia.
  apply Nat.ltb_ge in H. rewrite H. cbn [bind].
  destruct (split_rows sk (player_data data p)) as [train test]. simpl.
  eexists _, _, _. reflexivity.
Qed.

Lemma train_player_model_returns data p :
  raises (train_player_model sk data p) = false.
Proof.
  destruct (Nat.lt_ge_cases (List.length (player_data data p)) 10) as [H|H].
  - rewrite train_player_model_short by assumption. reflexivity.
  - destruct (train_player_model_fit data p H) as (t & i & c & ->). reflexivity.
Qed.

Lemma train_player_model_reported data p :
  Forall reported (stdout (train_player_model sk data p)).
Proof.
  destruct (Nat.lt_ge_cases (List.length (player_data data p)) 10) as [H|H].
  - rewrite train_player_model_short by assumption. simpl.
    repeat constructor.
  - destruct (train_player_model_fit data p H) as (t & i & c & ->). simpl.
    repeat constructor.
Qed.

Lemma train_players_returns data names :
  raises (train_players sk data names) = false.
Proof.
  induction names as [|p names IH]; simpl; [reflexivity|].
  apply raises_bind; [apply train_player_model_returns|auto].
Qed.

Lemma train_players_cons data p names :
  stdout (train_players sk data (p :: names))
  = stdout (train_player_model sk data p) ++ stdout (train_players sk data names).
Proof.
  simpl. erewrite stdout_bind; [reflexivity|].
  apply unit_run_Done, train_player_model_returns.
Qed.

Lemma train_players_app data names names' :
  stdout (train_players sk data (names ++ names'))
  = stdout (train_players sk data names) ++ stdout (train_players sk data names').
Proof.
  induction names as [|p names IH]; [reflexivity|].
  rewrite <- app_comm_cons, !train_players_cons, IH, app_assoc. reflexivity.
Qed.

Lemma train_players_reported data names :
  Forall reported (stdout (train_players sk data names)).
Proof.
  induction names as [|p names IH]; [constructor|].
  rewrite train_players_cons. apply Forall_app. split; [|assumption].
  apply train_player_model_reported.
Qed.

(** The run raises exactly when the training frame has fewer than two
    rows, in the first modelling cell and before anything is printed. *)
Lemma harness_raises df requested :
  (List.length (active_players df) < 2)%nat ->
  harness sk df requested = Raise "ValueError" [].
Proof.
  intros H. unfold harness. rewrite (linear_cell_raises _ H). reflexivity.
Qed.

Lemma harness_returns df requested :
  (2 <= List.length (active_players df))%nat ->
  raises (harness sk df requested) = false.
Proof.
  intros H. unfold harness.
  destruct (linear_cell_stdout (active_players df) H) as (t & i & c & ->).
  destruct (forest_cell_stdout (active_players df)) as (t' & v & ->).
  apply raises_bind; [reflexivity|]. intros _.
  apply raises_bind; [reflexivity|]. intros _.
  apply train_players_returns.
Qed.

Lemma harness_stdout df requested :
  (2 <= List.length (active_players df))%nat ->
  stdout (harness sk df requested)
  = stdout (linear_cell sk (active_players df))
    ++ stdout (forest_cell sk (active_players df))
    ++ stdout (train_players sk (active_players df) requested).
Proof.
  intros H. unfold harness.
  destruct (linear_cell_stdout (active_players df) H) as (t & i & c & ->).
  destruct (forest_cell_stdout (active_players df)) as (t' & v & ->).
  erewrite stdout_bind; [|reflexivity].
  erewrite stdout_bind; [|reflexivity]. reflexivity.
Qed.

Lemma harness_raises_iff df requested :
  raises (harness sk df requested) = true
  <-> (List.length (active_players df) < 2)%nat.
Proof.
  destruct (Nat.lt_ge_cases (List.length (active_players df)) 2) as [H|H].
  - rewrite (harness_raises df requested H). simpl. tauto.
  - rewrite (harness_returns df requested H). split; [discriminate|lia].
Qed.
End WithSklearn.

End HarnessFacts.

Module ModelingClaims.
Import Modeling ModelingFacts LagFacts HarnessFacts.

(** C7, as the notebook has it. When a model is requested for a player with
    fewer than ten rows in the training frame, and the training frame has the
    two rows the split of the global cell needs, the call prints its
    not-enough-data line and returns, there being no error value: the run does
    not raise, no call for another player raises, and the two global models
    and every other requested player print exactly what they print when that
    player is not requested. *)
Theorem insufficient_data_is_scoped (sk : Sklearn) (df : DataFrame)
    (before after : list string) (p : string)
    (Hrows : (2 <= List.length (active_players df))%nat)
    (Hshort : (List.length (player_data (active_players df) p) < 10)%nat) :
  raises (harness sk df (before ++ p :: after)) = false
  /\ train_player_model sk (active_players df) p
     = Done tt [not_enough_line p (List.length (player_data (active_players df) p))]
  /\ (forall q, raises (train_player_model sk (active_players df) q) = false)
  /\ stdout (harness sk df (before ++ p :: after))
     = stdout (linear_cell sk (active_players df))
       ++ stdout (forest_cell sk (active_players df))
       ++ stdout (train_players sk (active_players df) before)
       ++ not_enough_line p (List.length (player_data (active_players df) p))
          :: stdout (train_players sk (active_players df) after)
  /\ stdout (harness sk df (before ++ after))
     = stdout (linear_cell sk (active_players df))
       ++ stdout (forest_cell sk (active_players df))
       ++ stdout (train_players sk (active_players df) before)
       ++ stdout (train_players sk (active_players df) after).
Proof.
  split; [apply harness_returns; assumption|].
  split; [apply train_player_model_short; assumption|].
  split; [intros q; apply train_player_model_returns|].
  split.
  - rewrite harness_stdout, train_players_app, train_players_cons by assumption.
    rewrite train_player_model_short by assumption. reflexivity.
  - rewrite harness_stdout, train_players_app by assumption. reflexivity.
Qed.

Lemma insufficient_data_is_scoped_witness :
  (2 <= List.length (active_players df_season))%nat
  /\ (List.length (player_data (active_players df_season) "Lessort Mathias") < 10)%nat
  /\ raises (harness sk0 df_season (["Punter Kevin"] ++ "Lessort Mathias" :: [])) = false
  /\ stdout (harness sk0 df_season (["Punter Kevin"] ++ "Lessort Mathias" :: []))
     = stdout (linear_cell sk0 (active_players df_season))
       ++ stdout (forest_cell sk0 (active_players df_season))
       ++ stdout (train_players sk0 (active_players df_season) ["Punter Kevin"])
       ++ not_enough_line "Lessort Mathias"
            (List.length (player_data (active_players df_season) "Lessort Mathias"))
          :: stdout (train_players sk0 (active_players df_season) []).
Proof.
  assert (Hrows : (2 <= List.length (active_players df_season))%nat)
    by (vm_compute; lia).
  assert (H : (List.length (player_data (active_players df_season) "Lessort Mathias") < 10)%nat)
    by (vm_compute; lia).
  split; [exact Hrows|]. split; [exact H|].
  pose proof (insufficient_data_is_scoped sk0 df_season ["Punter Kevin"] []
                "Lessort Mathias" Hrows H) as T.
  split; [exact (proj1 T)|].
  exact (proj1 (proj2 (proj2 (proj2 T)))).
Defined.

(** With no player admitted the training frame is empty, and the split of
    the first modelling cell raises: the global models do not complete, and
    the request for the player with too few rows is not reached. *)
Lemma empty_training_frame_aborts :
  (List.length (player_data (active_players df_rematch) "Exum Dante") < 10)%nat
  /\ active_players df_rematch = []
  /\ harness sk0 df_rematch ["Exum Dante"] = Raise "ValueError" []
  /\ raises (harness sk0 df_rematch []) = true.
Proof.
  split; [vm_compute; lia|]. repeat split; vm_compute; reflexivity.
Qed.

(** C9, as the notebook has it. Every line the modelling cells print is a
    title, an intercept, a coefficient array, an R-squared, a mean squared
    error, a feature-importance array or a not-enough-data line; each model
    that is fitted (global linear, random forest, per player) prints the
    R-squared and the mean squared error of its holdout predictions, and no
    cell prints a root of the mean squared error. The global models are
    fitted when the training frame has two rows at least; otherwise the run
    stops in the split, nothing printed. *)
Theorem models_report_r2_and_mse (sk : Sklearn) (df : DataFrame)
    (requested : list string) :
  Forall reported (stdout (harness sk df requested))
  /\ (if Nat.ltb (List.length (active_players df)) 2
      then harness sk df requested = Raise "ValueError" []
      else
        (exists pre,
           stdout (linear_cell sk (active_players df))
           = pre ++ [ [Str "R-squared: "; Flt2 (fst (linear_scores sk (active_players df)))];
                      [Str "Mean Squared Error: ";
                       Flt2 (snd (linear_scores sk (active_players df)))] ])
        /\ (exists pre post,
              stdout (forest_cell sk (active_players df))
              = pre ++ [ [Str "R-squared: "; Flt2 (fst (forest_scores sk (active_players df)))];
                         [Str "Mean Squared Error: ";
                          Flt2 (snd (forest_scores sk (active_players df)))] ] ++ post)
        /\ stdout (harness sk df requested)
           = stdout (linear_cell sk (active_players df))
             ++ stdout (forest_cell sk (active_players df))
             ++ stdout (train_players sk (active_players df) requested))
  /\ (forall p,
        (10 <= List.length (player_data (active_players df) p))%nat ->
        exists pre,
          stdout (train_player_model sk (active_players df) p)
          = pre ++ [ [Str "R-squared: ";
                      Flt2 (fst (linear_scores sk (player_data (active_players df) p)))];
                     [Str "Mean Squared Error: ";
                      Flt2 (snd (linear_scores sk (player_data (active_players df) p)))] ]).
Proof.
  destruct (Nat.ltb (List.length (active_players df)) 2) eqn:E.
  - apply Nat.ltb_lt in E. rewrite (harness_raises sk df requested E).
    split; [constructor|]. split; [reflexivity|].
    intros p H.
    destruct (train_player_model_fit sk (active_players df) p H) as (t & i & c & ->).
    eexists [_; _; _]. reflexivity.
  - apply Nat.ltb_ge in E. split; [|split; [split; [|split]|]].
    + rewrite harness_stdout by assumption.
      destruct (linear_cell_stdout sk (active_players df) E) as (t & i & c & ->).
      destruct (forest_cell_stdout sk (active_players df)) as (t' & v & ->).
      simpl. repeat (constructor; [constructor|]).
      apply train_players_reported.
    + destruct (linear_cell_stdout sk (active_players df) E) as (t & i & c & ->).
      eexists [_; _; _]. reflexivity.
    + destruct (forest_cell_stdout sk (active_players df)) as (t' & v & ->).
      eexists [_], [_]. reflexivity.
    + apply harness_stdout. assumption.
    + intros p H.
      destruct (train_player_model_fit sk (active_players df) p H) as (t & i & c & ->).
      eexists [_; _; _]. reflexivity.
Qed.

(** With a mean squared error of 4 on every holdout, the number 2 is nowhere
    in what the notebook prints. *)
Lemma rmse_is_not_reported :
  snd (linear_scores sk0 (active_players df_season)) = 4%R
  /\ snd (forest_scores sk0 (active_players df_season)) = 4%R
  /\ snd (linear_scores sk0 (player_data (active_players df_season) "Punter Kevin")) = 4%R
  /\ printed_floats (stdout (notebook sk0 df_season))
     = [0; 0; 0; 0; 0; 0; 4; 0; 4; 1; 0; 0; 0; 0; 0; 0; 0; 0; 0; 4]%R
  /\ ~ In (sqrt 4) (printed_floats (stdout (notebook sk0 df_season))).
Proof.
  assert (Hout : printed_floats (stdout (notebook sk0 df_season))
                 = [0; 0; 0; 0; 0; 0; 4; 0; 4; 1; 0; 0; 0; 0; 0; 0; 0; 0; 0; 4]%R)
    by (vm_compute; reflexivity).
  repeat split; try (vm_compute; reflexivity); try exact Hout.
  rewrite Hout. intros H.
  assert (Hs : (sqrt 4 * sqrt 4 = 4)%R) by (apply sqrt_sqrt; lra).
  simpl in H.
  repeat (destruct H as [H|H]; [rewrite <- H in Hs; lra|]).
  exact H.
Qed.

(** C10, with one active row for each counted game. A player for whom the
    eligibility filter counts exactly ten games, each of them one active row,
    passes the filter and enters the sorted frame; the first row of the series
    is then dropped for its missing lag, so nine rows are left,
    [train_player_model] compares nine with ten, prints its not-enough-data line
    and fits no model. *)
Theorem ten_games_player_gets_no_model (sk : Sklearn) (df : DataFrame) (p : string)
    (Hten : player_games df p = 10%nat)
    (Hrows : List.length (player_rows p (active_players_playing df))
             = player_games df p) :
  Nat.leb min_player_games (player_games df p) = true
  /\ Permutation (player_rows p (active_players_playing df)) (series df p)
  /\ List.length (lagged_series df p) = 10%nat
  /\ List.length (player_data (active_players df) p) = 9%nat
  /\ train_player_model sk (active_players df) p = Done tt [not_enough_line p 9].
Proof.
  assert (Hadm : Nat.leb min_player_games (player_games df p) = true)
    by (rewrite Hten; reflexivity).
  assert (Hperm : Permutation (player_rows p (active_players_playing df)) (series df p)).
  { rewrite <- series_perm, series_eligible, Hadm. reflexivity. }
  assert (Hser : List.length (series df p) = 10%nat).
  { rewrite <- (Permutation_length Hperm), Hrows. assumption. }
  assert (Hlen : List.length (player_data (active_players df) p) = 9%nat).
  { change (player_data (active_players df) p) with (pooled df p).
    rewrite pooled_length, Hser. reflexivity. }
  repeat split; try assumption.
  - rewrite lagged_series_eq, length_combine, lag_from_length, Hser. reflexivity.
  - rewrite train_player_model_short by (rewrite Hlen; lia).
    rewrite Hlen. reflexivity.
Qed.

(** Whatever the game codes are, ten active rows leave fewer than ten rows
    in the training frame: nine when the player passes the filter, none when
    repeated game codes keep the player out. *)
Lemma ten_rows_player_is_short (sk : Sklearn) (df : DataFrame) (p : string) :
  List.length (player_rows p (active_players_playing df)) = 10%nat ->
  exists n, (n < 10)%nat
    /\ train_player_model sk (active_players df) p = Done tt [not_enough_line p n].
Proof.
  intros Hten. exists (List.length (player_data (active_players df) p)).
  assert (H : (List.length (player_data (active_players df) p) < 10)%nat).
  { change (player_data (active_players df) p) with (pooled df p).
    rewrite pooled_length, <- (Permutation_length (series_perm df p)), series_eligible.
    destruct (Nat.leb min_player_games (player_games df p)); simpl; lia. }
  split; [assumption|]. apply train_player_model_short. assumption.
Qed.

Lemma ten_games_player_gets_no_model_witness :
  player_games df_season "Lessort Mathias" = 10%nat
  /\ train_player_model sk0 (active_players df_season) "Lessort Mathias"
     = Done tt [not_enough_line "Lessort Mathias" 9].
Proof.
  split; [vm_compute; reflexivity|].
  refine (proj2 (proj2 (proj2 (proj2
    (ten_games_player_gets_no_model sk0 df_season "Lessort Mathias" _ _))))).
  - vm_compute. reflexivity.
  - vm_compute. reflexivity.
Defined.

(** The training rows of a player with ten games: round, points, points of
    the game before. The first game, round 1, is not among them. *)
Example lessort_training_rows :
  map (fun s => (round (row s), points (row s), points_previous_game s))
      (pooled df_season "Lessort Mathias")
  = [ (2, 12, 10); (3, 14, 12); (4, 8, 14); (5, 12, 8); (6, 16, 12);
      (7, 10, 16); (8, 12, 10); (9, 14, 12); (10, 12, 14) ].
Proof. reflexivity. Qed.

(** The eligibility filter counts distinct values of the [game] column.
    With ten active games, one of them a rematch under the code of an earlier
    game, it counts nine: the player is not admitted and the request finds no
    row at all. With eleven active games, one of them such a rematch, it
    counts ten: ten rows are left after the first is dropped and the model is
    fitted. *)
Lemma rematch_counts_once :
  (List.length (player_rows "Exum Dante" (active_players_playing df_rematch)) = 10%nat
   /\ player_games df_rematch "Exum Dante" = 9%nat
   /\ player_data (active_players df_rematch) "Exum Dante" = []
   /\ train_player_model sk0 (active_players df_rematch) "Exum Dante"
      = Done tt [not_enough_line "Exum Dante" 0])
  /\ (List.length (player_rows "Exum Dante" (active_players_playing df_rematch11)) = 11%nat
      /\ player_games df_rematch11 "Exum Dante" = 10%nat
      /\ List.length (player_data (active_players df_rematch11) "Exum Dante") = 10%nat
      /\ train_player_model sk0 (active_players df_rematch11) "Exum Dante"
         = Done tt [ [Str (nl +++ "Results for "); Str "Exum Dante"; Str ":"];
                     [Str "Intercept:"; Flt 0];
                     [Str coef_label; Vec [0; 0; 0; 0]%R];
                     [Str "R-squared: "; Flt2 0];
                     [Str "Mean Squared Error: "; Flt2 4] ]).
Proof. repeat split; vm_compute; reflexivity. Qed.

(** A player with three active games is filtered out before the lag is
    built: the request finds no row at all. *)
Example three_games_not_enough :
  train_player_model sk0 (active_players df_season) "Madar Yam"
  = Done tt [not_enough_line "Madar Yam" 0].
Proof. reflexivity. Qed.

End ModelingClaims.

(** ** int64 arithmetic *)

Lemma wrap64_small z : - 2 ^ 63 <= z < 2 ^ 63 -> wrap64 z = z.
Proof.
  intros H. unfold wrap64. rewrite Z.mod_small; lia.
Qed.




(** A column sum that fits in 64 bits is the exact sum. *)
Lemma col_sum_exact col df :
  - 2 ^ 63 <= Zsum (map col df) < 2 ^ 63 -> col_sum col df = Zsum (map col df).
Proof. apply wrap64_small. Qed.

(** ** The validation cells *)

Module ValidationFacts.
Import Validation.


Lemma print_if_eq c s : print_if c s = Done tt (if c then [s] else []).
Proof. destruct c; reflexivity. Qed.

Lemma check_and_explain_metrics_eq df :
  check_and_explain_metrics df
  = Done tt
      ((if (col_sum total_rebounds (partizan_players df) =? col_sum total_rebounds (partizan_team df))
           && (col_sum steals (partizan_players df) =? col_sum steals (partizan_team df))
           && (col_sum turnovers (partizan_players df) =? col_sum turnovers (partizan_team df))
        then [msg_all_matching] else [])
       ++ (if negb (col_sum total_rebounds (partizan_players df) =? col_sum total_rebounds (partizan_team df))
           then [msg_rebounds] else [])
       ++ (if negb (col_sum steals (partizan_players df) =? col_sum steals (partizan_team df))
           then [msg_steals] else [])
       ++ (if negb (col_sum turnovers (partizan_players df) =? col_sum turnovers (partizan_team df))
           then [msg_turnovers] else [])).
Proof.
  unfold check_and_explain_metrics. cbv zeta. rewrite !print_if_eq. simpl.
  reflexivity.
Qed.

Lemma check_game_metric_eq label col df g b :
  check_game_metric label col df g b
  = Done (b && negb (metric_mismatch col df g))
         (if metric_mismatch col df g then [label +++ " mismatch in game " +++ g] else []).
Proof.
  unfold check_game_metric. fold (metric_mismatch col df g).
  destruct (metric_mismatch col df g); simpl.
  - rewrite andb_false_r. reflexivity.
  - rewrite andb_true_r. reflexivity.
Qed.

Lemma check_game_eq df g b :
  check_game df g b = Done (b && game_ok df g) (mismatch_lines df g).
Proof.
  unfold check_game. rewrite check_game_metric_eq. cbn [bind].
  rewrite check_game_metric_eq. cbn [bind].
  rewrite check_game_metric_eq.
  unfold game_ok, mismatch_lines, per_game_metrics.
  cbn [flat_map forallb fst snd].
  destruct (metric_mismatch points df g), (metric_mismatch assists df g),
    (metric_mismatch total_seconds df g), b; reflexivity.
Qed.

Lemma per_game_loop_eq df gs b :
  per_game_loop df gs b
  = Done (b && forallb (game_ok df) gs) (flat_map (mismatch_lines df) gs).
Proof.
  revert b. induction gs as [|g gs IH]; intros b; simpl.
  - rewrite andb_true_r. reflexivity.
  - rewrite check_game_eq. cbn [bind]. rewrite IH, andb_assoc. reflexivity.
Qed.

Lemma per_game_cell_eq df :
  per_game_cell df
  = Done (forallb (game_ok df) (games df))
         (flat_map (mismatch_lines df) (games df)
          ++ if forallb (game_ok df) (games df) then [msg_games_ok] else []).
Proof.
  unfold per_game_cell. rewrite per_game_loop_eq. cbn [bind andb].
  rewrite print_if_eq. cbn [bind ret]. rewrite app_nil_r. reflexivity.
Qed.



End ValidationFacts.

Module ValidationClaims.
Import Validation ValidationFacts.



Lemma msg_games_ok_not_mismatch df gs :
  ~ In msg_games_ok (flat_map (mismatch_lines df) gs).
Proof.
  rewrite in_flat_map. intros [g [_ H]]. unfold mismatch_lines in H.
  rewrite in_flat_map in H. destruct H as [[label col] [Hin H]].
  simpl in H. destruct (metric_mismatch col df g); [|contradiction].
  destruct H as [H|[]].
  unfold per_game_metrics in Hin. simpl in Hin.
  repeat (destruct Hin as [Hin|Hin]; [injection Hin as <- _; discriminate H|]).
  contradiction.
Qed.


Lemma In_games df g : In g (games df) <-> In g (map game df).
Proof. apply In_unique. Qed.







(** Where two games share a code the loop sums their rows together: each of
    the two games under "MAD-PAR" has a team row that differs from the player
    sum in points, and the closing line is printed. *)
Example shared_code_hides_games :
  distinct_codes df_shared_code = false
  /\ (forall r0, In r0 df_shared_code ->
        col_sum points (partizan_team (rows_of_game df_shared_code r0))
        <> col_sum points (partizan_players (rows_of_game df_shared_code r0)))
  /\ per_game_cell df_shared_code = Done true [msg_games_ok].
Proof.
  split; [vm_compute; reflexivity|]. split; [|vm_compute; reflexivity].
  intros r0 H. simpl in H.
  repeat (destruct H as [<-|H]; [vm_compute; discriminate|]). contradiction.
Qed.


Ltac distinct_messages H :=
  repeat match type of H with
         | _ \/ _ => destruct H as [H|H]
         | False => contradiction
         | _ = _ => vm_compute in H; discriminate H
         end.

Lemma In_explanation df (col : Row -> Z) (msg : string) :
  In (col, msg) [ (total_rebounds, msg_rebounds); (steals, msg_steals);
                  (turnovers, msg_turnovers) ] ->
  In msg (stdout (check_and_explain_metrics df))
  <-> col_sum col (partizan_players df) <> col_sum col (partizan_team df).
Proof.
  intros Hin. rewrite <- Z.eqb_neq, check_and_explain_metrics_eq. cbn [stdout].
  simpl in Hin.
  repeat (destruct Hin as [Hin|Hin]; [injection Hin as <- <-|]);
    try contradiction;
    destruct (col_sum total_rebounds (partizan_players df)
              =? col_sum total_rebounds (partizan_team df)),
             (col_sum steals (partizan_players df)
              =? col_sum steals (partizan_team df)),
             (col_sum turnovers (partizan_players df)
              =? col_sum turnovers (partizan_team df));
    cbn [In negb andb app];
    (split; [intros H; try reflexivity; exfalso; distinct_messages H
            |intros H; try discriminate H; tauto]).
Qed.



(** Forty team rebounds against thirty-four credited to players: six
    unassigned rebounds are printed. *)
Example six_unassigned_rebounds :
  rebound_difference df_unassigned = 6
  /\ In "Unassigned team rebounds: 6" (stdout (validator df_unassigned))
  /\ raises (validator df_unassigned) = false.
Proof.
  repeat split; vm_compute; auto.
Qed.




End ValidationClaims.

(** ** Mean, standard deviation and correlation *)

Lemma Rsum_sq_nonneg (c : R) (l : list Z) :
  (0 <= Rsum (map (fun x => (IZR x - c) * (IZR x - c)) l))%R.
Proof.
  induction l as [|x l IH]; simpl; [lra|].
  pose proof (Rle_0_sqr (IZR x - c)) as H. unfold Rsqr in H. lra.
Qed.

Lemma dev_products_self xs :
  dev_products xs xs
  = Rsum (map (fun x => (IZR x - avg xs) * (IZR x - avg xs))%R xs).
Proof.
  unfold dev_products. generalize (avg xs) as c. intros c.
  induction xs as [|x xs IH]; simpl; [reflexivity|]. rewrite IH. reflexivity.
Qed.

Lemma dev_products_self_nonneg xs : (0 <= dev_products xs xs)%R.
Proof. rewrite dev_products_self. apply Rsum_sq_nonneg. Qed.




Lemma corrcoef_spec a b r :
  (2 <= List.length a)%nat -> List.length b = List.length a ->
  corrcoef a b = Some r ->
  (r * sqrt (dev_products a a) * sqrt (dev_products b b) = dev_products a b)%R.
Proof.
  intros Ha Hb. unfold corrcoef, cov.
  assert (Hcb : count b = count a) by (unfold count; rewrite Hb; reflexivity).
  rewrite Hcb.
  assert (Hc : (0 < count a - 1)%R).
  { unfold count. apply le_INR in Ha. simpl in Ha. lra. }
  set (c := (count a - 1)%R) in *.
  destruct (Req_dec_T (dev_products a a / c) 0) as [|Hna]; [discriminate|].
  destruct (Req_dec_T (dev_products b b / c) 0) as [|Hnb]; [discriminate|].
  intros H. injection H as <-.
  pose proof (dev_products_self_nonneg a) as Pa.
  pose proof (dev_products_self_nonneg b) as Pb.
  rewrite !sqrt_div by assumption.
  assert (Hsa : sqrt (dev_products a a) <> 0%R).
  { intros Hz. apply sqrt_eq_0 in Hz; [|assumption]. apply Hna. rewrite Hz. unfold Rdiv. apply Rmult_0_l. }
  assert (Hsb : sqrt (dev_products b b) <> 0%R).
  { intros Hz. apply sqrt_eq_0 in Hz; [|assumption]. apply Hnb. rewrite Hz. unfold Rdiv. apply Rmult_0_l. }
  assert (Hsc : (0 < sqrt c)%R) by (apply sqrt_lt_R0; assumption).
  assert (Hcc : (sqrt c * sqrt c = c)%R) by (apply sqrt_sqrt; lra).
  set (sc := sqrt c) in *. rewrite <- Hcc. field. repeat split; lra.
Qed.

Lemma dropna_combine_Some {A B : Type} (l : list A) (l' : list B) :
  dropna (combine l (map Some l')) = combine l l'.
Proof.
  revert l'. induction l as [|a l IH]; intros [|b l']; simpl; try reflexivity.
  rewrite IH. reflexivity.
Qed.

(** The pairs the lag-1 correlation is computed on: each value but the first
    with the value just before it. *)
Lemma autocorr_pairs xs :
  dropna (combine xs (series_shift1 xs)) = combine (tl xs) (removelast xs).
Proof.
  destruct xs as [|x l]; [reflexivity|].
  unfold series_shift1. cbn [combine dropna tl].
  apply dropna_combine_Some.
Qed.

Lemma length_removelast_tl {A : Type} (l : list A) :
  List.length (removelast l) = List.length (tl l).
Proof.
  induction l as [|a [|b l] IH]; simpl in *; auto.
Qed.

Lemma map_fst_combine_eq {A B : Type} (l : list A) (l' : list B) :
  List.length l = List.length l' -> map fst (combine l l') = l.
Proof.
  revert l'. induction l as [|a l IH]; intros [|b l'] H; simpl in *;
    try discriminate; [reflexivity|]. f_equal. apply IH. lia.
Qed.

Lemma map_snd_combine_eq {A B : Type} (l : list A) (l' : list B) :
  List.length l = List.length l' -> map snd (combine l l') = l'.
Proof.
  revert l'. induction l as [|a l IH]; intros [|b l'] H; simpl in *;
    try discriminate; [reflexivity|]. f_equal. apply IH. lia.
Qed.

Lemma autocorr1_spec xs r :
  (3 <= List.length xs)%nat ->
  autocorr1 xs = Some r ->
  List.length (tl xs) = pred (List.length xs)
  /\ List.length (removelast xs) = pred (List.length xs)
  /\ (r * sqrt (dev_products (tl xs) (tl xs))
        * sqrt (dev_products (removelast xs) (removelast xs))
      = dev_products (tl xs) (removelast xs))%R.
Proof.
  intros Hn. unfold autocorr1, series_corr. rewrite autocorr_pairs.
  assert (Hl : List.length (tl xs) = pred (List.length xs)) by (destruct xs; reflexivity).
  assert (Hl' : List.length (removelast xs) = List.length (tl xs))
    by apply length_removelast_tl.
  rewrite map_fst_combine_eq, map_snd_combine_eq by congruence.
  destruct (Nat.ltb _ 1); [discriminate|].
  intros H. split; [assumption|]. split; [congruence|].
  apply corrcoef_spec; [lia|assumption|assumption].
Qed.




(** A series that alternates between two values has lag-1 autocorrelation
    -1; the sample standard deviation of 1, 3 is the root of 2. *)
Example alternating_series_autocorr : autocorr1 [0; 2; 0; 2] = Some (-1)%R.
Proof.
  destruct (autocorr1 [0; 2; 0; 2]) as [r|] eqn:E.
  - f_equal.
    destruct (autocorr1_spec [0; 2; 0; 2] r) as (_ & _ & H); [simpl; lia|exact E|].
    cbn [tl removelast] in H.
    assert (Ha : dev_products [2; 0; 2] [2; 0; 2] = (8 / 3)%R).
    { unfold dev_products, avg, count, Zsum. simpl. lra. }
    assert (Hb : dev_products [0; 2; 0] [0; 2; 0] = (8 / 3)%R).
    { unfold dev_products, avg, count, Zsum. simpl. lra. }
    assert (Hab : dev_products [2; 0; 2] [0; 2; 0] = (- (8 / 3))%R).
    { unfold dev_products, avg, count, Zsum. simpl. lra. }
    rewrite Ha, Hb, Hab in H.
    assert (Hs : (sqrt (8 / 3) * sqrt (8 / 3) = 8 / 3)%R) by (apply sqrt_sqrt; lra).
    nra.
  - exfalso. unfold autocorr1, series_corr in E. rewrite autocorr_pairs in E.
    cbn [tl removelast combine map fst snd List.length Nat.ltb Nat.leb] in E.
    unfold corrcoef in E.
    assert (Ha : cov [2; 0; 2] [2; 0; 2] = (4 / 3)%R).
    { unfold cov, dev_products, avg, count, Zsum. simpl. lra. }
    assert (Hb : cov [0; 2; 0] [0; 2; 0] = (4 / 3)%R).
    { unfold cov, dev_products, avg, count, Zsum. simpl. lra. }
    rewrite Ha, Hb in E.
    destruct (Req_dec_T (4 / 3) 0) as [H|H]; [lra|discriminate].
Qed.

Example std_of_two_values : series_std [1; 3] = Some (sqrt 2).
Proof.
  unfold series_std. cbn [List.length Nat.leb]. do 2 f_equal.
  unfold dev_products, avg, count, Zsum. simpl. lra.
Qed.

(** ** The consistency frame *)

Module ConsistencyFacts.
Import Consistency.

Lemma loc_map_keys {V : Type} (f : string -> V) keys p :
  loc p (map (fun q => (q, f q)) keys)
  = if existsb (fun q => String.eqb q p) keys then Some (f p) else None.
Proof.
  induction keys as [|k keys IH]; simpl; [reflexivity|].
  destruct (String.eqb k p) eqn:E; simpl; [|assumption].
  apply String.eqb_eq in E. subst. reflexivity.
Qed.

Lemma loc_dropna_keys {V : Type} (f : string -> option V) keys p :
  loc p (dropna (map (fun q => (q, f q)) keys))
  = if existsb (fun q => String.eqb q p) keys then f p else None.
Proof.
  induction keys as [|k keys IH]; simpl; [reflexivity|].
  destruct (String.eqb k p) eqn:E; simpl.
  - apply String.eqb_eq in E. subst k.
    destruct (f p) eqn:F; simpl.
    + rewrite String.eqb_refl. reflexivity.
    + rewrite IH. destruct (existsb _ keys); auto.
  - destruct (f k); simpl; [rewrite E|]; assumption.
Qed.

Lemma existsb_filter_keys (cond : string -> bool) keys p :
  existsb (fun q => String.eqb q p) (filter cond keys)
  = cond p && existsb (fun q => String.eqb q p) keys.
Proof.
  induction keys as [|k keys IH]; simpl; [rewrite andb_false_r; reflexivity|].
  destruct (String.eqb k p) eqn:E.
  - apply String.eqb_eq in E. subst k.
    destruct (cond p) eqn:C; simpl.
    + rewrite String.eqb_refl. reflexivity.
    + rewrite IH. try rewrite C. reflexivity.
  - destruct (cond k); simpl; [rewrite E|]; rewrite IH; reflexivity.
Qed.

Lemma existsb_group_keys df p :
  existsb (fun q => String.eqb q p) (group_keys df) = true <-> In p (map player df).
Proof.
  rewrite existsb_exists. unfold group_keys. split.
  - intros [q [Hq E]]. apply String.eqb_eq in E. subst q.
    apply (Permutation_in _ (Permutation_sym (sort_by_perm String.compare _))) in Hq.
    apply -> In_unique in Hq. assumption.
  - intros H. exists p. split; [|apply String.eqb_refl].
    apply (Permutation_in _ (sort_by_perm String.compare _)).
    apply <- In_unique. assumption.
Qed.

Lemma player_rows_nonempty_key df p :
  (0 < List.length (player_rows p df))%nat -> In p (map player df).
Proof.
  intros H. destruct (player_rows p df) as [|r l] eqn:E; [simpl in H; lia|].
  assert (Hr : In r (player_rows p df)) by (rewrite E; left; reflexivity).
  apply filter_In in Hr. destruct Hr as [Hr Hp]. apply String.eqb_eq in Hp.
  rewrite <- Hp. apply in_map. assumption.
Qed.

Lemma loc_consistency_full df p :
  loc p (consistency_full df)
  = if Nat.leb min_games (group_size df p) then Some (agg_group df p) else None.
Proof.
  unfold consistency_full. rewrite loc_map_keys, existsb_filter_keys.
  destruct (Nat.leb min_games (group_size df p)) eqn:E; [|reflexivity].
  simpl. apply Nat.leb_le in E. unfold min_games, group_size in E.
  assert (H : existsb (fun q => String.eqb q p) (group_keys (active_players df)) = true).
  { apply existsb_group_keys, player_rows_nonempty_key. lia. }
  rewrite H. reflexivity.
Qed.

Lemma loc_autocorr_points df p :
  loc p (autocorr_points df)
  = if Nat.leb 10 (group_size df p)
    then autocorr1 (map points (player_rows p (active_players df)))
    else None.
Proof.
  unfold autocorr_points.
  rewrite (loc_dropna_keys
             (fun q => autocorr_or_nan (map points (player_rows q (active_players df))))).
  unfold autocorr_or_nan, group_size. rewrite length_map.
  destruct (Nat.leb 10 (List.length (player_rows p (active_players df)))) eqn:E.
  - apply Nat.leb_le in E.
    assert (H : existsb (fun q => String.eqb q p) (group_keys (active_players df)) = true).
    { apply existsb_group_keys, player_rows_nonempty_key. lia. }
    rewrite H. reflexivity.
  - destruct (existsb _ _); reflexivity.
Qed.

End ConsistencyFacts.

Module ConsistencyClaims.
Import Consistency ConsistencyFacts.






(** Three active games give no row and no autocorrelation. *)
Example three_games_no_statistics :
  loc "Madar Yam" (consistency_full df_season) = None
  /\ loc "Madar Yam" (autocorr_points df_season) = None.
Proof.
  split.
  - rewrite loc_consistency_full. reflexivity.
  - rewrite loc_autocorr_points. reflexivity.
Qed.

End ConsistencyClaims.

(** * More of the notebooks *)

(** ** Cleaning: the [minutes] column *)

Module CleaningFacts.
Import Cleaning.

Lemma split_on_nonempty sep s : split_on sep s <> [].
Proof.
  destruct s as [|c rest]; simpl; [discriminate|].
  destruct (Ascii.eqb c sep); [discriminate|].
  destruct (split_on sep rest); discriminate.
Qed.

Lemma split_on_length sep s :
  List.length (split_on sep s) = S (count_char sep s).
Proof.
  induction s as [|c rest IH]; simpl; [reflexivity|].
  destruct (Ascii.eqb c sep); simpl.
  - rewrite IH. reflexivity.
  - destruct (split_on sep rest) eqn:E; simpl in *; [discriminate|assumption].
Qed.

Lemma split_on_whole sep s : count_char sep s = 0%nat -> split_on sep s = [s].
Proof.
  induction s as [|c rest IH]; simpl; [reflexivity|].
  destruct (Ascii.eqb c sep); simpl; [discriminate|].
  intros H. rewrite (IH H). reflexivity.
Qed.

Lemma split_on_first sep a b :
  count_char sep a = 0%nat ->
  split_on sep (a +++ String sep b) = a :: split_on sep b.
Proof.
  induction a as [|c rest IH]; simpl.
  - intros _. rewrite Ascii.eqb_refl. reflexivity.
  - destruct (Ascii.eqb c sep); simpl; [discriminate|].
    intros H. rewrite (IH H). reflexivity.
Qed.

(** A digit is no whitespace, no sign, no underscore and no colon. *)
Lemma digit_is_plain c :
  is_digit c = true ->
  is_space c = false /\ Ascii.eqb c "+" = false /\ Ascii.eqb c "-" = false
  /\ Ascii.eqb c "_" = false /\ Ascii.eqb c ":" = false /\ 0 <= digit_value c <= 9.
Proof.
  destruct c as [[] [] [] [] [] [] [] []]; vm_compute; intros H;
    try discriminate H; repeat split; try reflexivity; discriminate.
Qed.

Lemma digits_no_colon ds :
  all_digits ds -> count_char ":" (string_of_list_ascii ds) = 0%nat.
Proof.
  induction 1 as [|c ds Hc _ IH]; simpl; [reflexivity|].
  destruct (digit_is_plain c Hc) as (_ & _ & _ & _ & H & _). rewrite H. assumption.
Qed.

Lemma scan_digits ds :
  all_digits ds -> scan false (string_of_list_ascii ds) = Some (ds, EmptyString).
Proof.
  induction 1 as [|c ds Hc _ IH]; simpl; [reflexivity|].
  rewrite Hc, IH. reflexivity.
Qed.

Lemma digits_value_snoc ds c :
  digits_value (ds ++ [c]) = 10 * digits_value ds + digit_value c.
Proof. unfold digits_value. rewrite fold_left_app. reflexivity. Qed.

Lemma digits_value_nonneg ds : all_digits ds -> 0 <= digits_value ds.
Proof.
  intros H. induction ds as [|c ds IH] using rev_ind; [unfold digits_value; simpl; lia|].
  apply Forall_app in H. destruct H as [H Hc]. inversion Hc; subst.
  rewrite digits_value_snoc.
  destruct (digit_is_plain c) as (_ & _ & _ & _ & _ & Hv); [assumption|].
  specialize (IH H). lia.
Qed.

Lemma py_int_digits ds :
  all_digits ds -> (1 <= List.length ds <= max_str_digits)%nat ->
  py_int (string_of_list_ascii ds) = Some (digits_value ds).
Proof.
  intros Hd [Hlo Hhi]. destruct ds as [|c ds]; [simpl in Hlo; lia|].
  pose proof (scan_digits _ Hd) as Hscan.
  inversion Hd as [|? ? Hc Hrest]; subst.
  destruct (digit_is_plain c Hc) as (Hsp & Hplus & Hminus & Hus & _).
  unfold py_int. cbn [string_of_list_ascii lstrip] in *.
  rewrite Hsp, Hplus, Hminus, Hus, Hscan.
  replace (Nat.eqb (List.length (c :: ds)) 0) with false by reflexivity.
  replace (Nat.ltb max_str_digits (List.length (c :: ds))) with false
    by (symmetry; apply Nat.ltb_ge; assumption).
  reflexivity.
Qed.

Lemma py_int_minus_digits ds :
  all_digits ds -> (1 <= List.length ds <= max_str_digits)%nat ->
  py_int (String "-" (string_of_list_ascii ds)) = Some (- digits_value ds).
Proof.
  intros Hd [Hlo Hhi]. destruct ds as [|c ds]; [simpl in Hlo; lia|].
  pose proof (scan_digits _ Hd) as Hscan.
  inversion Hd as [|? ? Hc Hrest]; subst.
  destruct (digit_is_plain c Hc) as (Hsp & Hplus & Hminus & Hus & _).
  unfold py_int. cbn [string_of_list_ascii lstrip] in *.
  replace (is_space "-") with false by reflexivity.
  replace (Ascii.eqb "-" "+") with false by reflexivity.
  replace (Ascii.eqb "-" "-") with true by reflexivity.
  rewrite Hus, Hscan.
  replace (Nat.eqb (List.length (c :: ds)) 0) with false by reflexivity.
  replace (Nat.ltb max_str_digits (List.length (c :: ds))) with false
    by (symmetry; apply Nat.ltb_ge; assumption).
  reflexivity.
Qed.

(** X1. Two fields of decimal digits around one colon give sixty times the
    first number plus the second; the second field is not limited to 59. *)
Theorem mm_ss_to_seconds_of_digits (m s : list ascii)
    (Hm : all_digits m) (Hs : all_digits s)
    (Hmlen : (1 <= List.length m <= max_str_digits)%nat)
    (Hslen : (1 <= List.length s <= max_str_digits)%nat) :
  mm_ss_to_seconds (string_of_list_ascii m +++ String ":" (string_of_list_ascii s))
  = Some (digits_value m * 60 + digits_value s)
  /\ 0 <= digits_value m * 60 + digits_value s.
Proof.
  split.
  - unfold mm_ss_to_seconds.
    rewrite split_on_first by (apply digits_no_colon; assumption).
    rewrite split_on_whole by (apply digits_no_colon; assumption).
    rewrite !py_int_digits by assumption. reflexivity.
  - pose proof (digits_value_nonneg m Hm). pose proof (digits_value_nonneg s Hs). lia.
Qed.

Lemma mm_ss_to_seconds_of_digits_witness :
  mm_ss_to_seconds "07:75" = Some 495.
Proof.
  refine (proj1 (mm_ss_to_seconds_of_digits ["0"; "7"]%char ["7"; "5"]%char _ _ _ _));
    try (repeat constructor); vm_compute; intuition discriminate.
Defined.

(** X2. A string that does not hold exactly one colon gives [None]: no
    colon leaves one field, two or more leave too many to unpack. *)
Theorem mm_ss_to_seconds_needs_one_colon (time_str : string)
    (Hcolons : count_char ":" time_str <> 1%nat) :
  mm_ss_to_seconds time_str = None.
Proof.
  unfold mm_ss_to_seconds.
  pose proof (split_on_length ":" time_str) as H.
  destruct (split_on ":" time_str) as [|a [|b [|c l]]]; try reflexivity.
  simpl in H. exfalso. apply Hcolons. lia.
Qed.

Lemma mm_ss_to_seconds_needs_one_colon_witness :
  mm_ss_to_seconds "1:02:03" = None /\ mm_ss_to_seconds "DNP" = None.
Proof.
  split; apply mm_ss_to_seconds_needs_one_colon; vm_compute; discriminate.
Defined.

(** X3. A minus sign before the minutes is accepted: the result is the
    seconds less sixty times the minutes, and is negative as soon as the
    minutes outweigh the seconds. *)
Theorem mm_ss_to_seconds_negative_minutes (m s : list ascii)
    (Hm : all_digits m) (Hs : all_digits s)
    (Hmlen : (1 <= List.length m <= max_str_digits)%nat)
    (Hslen : (1 <= List.length s <= max_str_digits)%nat) :
  mm_ss_to_seconds (String "-" (string_of_list_ascii m) +++ String ":" (string_of_list_ascii s))
  = Some (digits_value s - 60 * digits_value m).
Proof.
  unfold mm_ss_to_seconds.
  rewrite split_on_first
    by (simpl; apply digits_no_colon; assumption).
  rewrite split_on_whole by (apply digits_no_colon; assumption).
  rewrite py_int_minus_digits, py_int_digits by assumption.
  f_equal. lia.
Qed.

Lemma mm_ss_to_seconds_negative_minutes_witness :
  mm_ss_to_seconds "-1:30" = Some (-30).
Proof.
  refine (mm_ss_to_seconds_negative_minutes ["1"]%char ["3"; "0"]%char _ _ _ _);
    try (repeat constructor); vm_compute; intuition discriminate.
Defined.

(** X4. A [minutes] cell that is missing, empty or 'DNP' becomes '00:00'
    and zero seconds, although 'DNP' and the empty string themselves do not
    convert; any other cell is converted as it stands. *)
Theorem missing_minutes_are_zero_seconds (cell : option string) :
  (cell = None \/ cell = Some EmptyString \/ cell = Some "DNP" ->
   minutes_filled cell = "00:00" /\ total_seconds_of cell = Some 0)
  /\ (forall s, cell = Some s -> s <> EmptyString -> s <> "DNP" ->
      minutes_filled cell = s /\ total_seconds_of cell = mm_ss_to_seconds s)
  /\ mm_ss_to_seconds "DNP" = None
  /\ mm_ss_to_seconds EmptyString = None.
Proof.
  repeat split.
  - destruct H as [->|[->| ->]]; reflexivity.
  - destruct H as [->|[->| ->]]; reflexivity.
  - subst cell. unfold minutes_filled, replace_with_na.
    apply String.eqb_neq in H0, H1. rewrite H0, H1. reflexivity.
  - subst cell. unfold total_seconds_of, minutes_filled, replace_with_na.
    apply String.eqb_neq in H0, H1. rewrite H0, H1. reflexivity.
Qed.

Lemma missing_minutes_are_zero_seconds_witness :
  minutes_filled (Some "DNP") = "00:00" /\ total_seconds_of (Some "DNP") = Some 0.
Proof.
  apply (proj1 (missing_minutes_are_zero_seconds (Some "DNP"))).
  right. right. reflexivity.
Defined.

End CleaningFacts.

(** ** Cleaning: duplicate rows, player names, playing time against status *)

Module CleaningFrameFacts.
Import Cleaning.

Section KeyedRows.
Context {row : Type}.
Variables (game : row -> string) (round : row -> Z) (player : row -> string).

Lemma same_key_iff a b :
  same_key game round player a b = true
  <-> row_key game round player a = row_key game round player b.
Proof.
  unfold same_key, row_key.
  rewrite !andb_true_iff, !String.eqb_eq, Z.eqb_eq. split.
  - intros [[-> ->] ->]. reflexivity.
  - intros H. injection H as -> -> ->. auto.
Qed.

Lemma select_map_mask (f : row -> bool) df : select df (map f df) = filter f df.
Proof.
  induction df as [|r df IH]; simpl; [reflexivity|]. rewrite IH. reflexivity.
Qed.

Lemma duplicates_filter df :
  duplicates game round player df
  = filter (fun r => Nat.leb 2 (List.length
                       (filter (same_key game round player r) df))) df.
Proof. apply select_map_mask. Qed.

Lemma key_eq_dec (k k' : string * Z * string) : {k = k'} + {k <> k'}.
Proof.
  decide equality; [apply string_dec|].
  decide equality; [apply Z.eq_dec|apply string_dec].
Qed.

Lemma twins_count r df :
  List.length (filter (same_key game round player r) df)
  = count_occ key_eq_dec (map (row_key game round player) df)
              (row_key game round player r).
Proof.
  induction df as [|x df IH]; simpl; [reflexivity|].
  destruct (same_key game round player r x) eqn:E.
  - apply same_key_iff in E. rewrite <- E.
    destruct (key_eq_dec _ _) as [_|N]; [|congruence]. simpl. rewrite IH. reflexivity.
  - destruct (key_eq_dec (row_key game round player x) (row_key game round player r))
      as [Heq|_]; [|assumption].
    symmetry in Heq. apply same_key_iff in Heq. congruence.
Qed.

(** X5. The duplicate check shows no row exactly when no two rows of the
    frame share game, round and player. *)
Theorem duplicates_empty_iff_keys_distinct (df : list row) :
  duplicates game round player df = []
  <-> NoDup (map (row_key game round player) df).
Proof.
  rewrite duplicates_filter, (NoDup_count_occ key_eq_dec). split.
  - intros H k.
    destruct (in_dec key_eq_dec k (map (row_key game round player) df)) as [Hin|Hout].
    + apply in_map_iff in Hin. destruct Hin as [r [<- Hr]].
      rewrite <- twins_count.
      destruct (Nat.leb 2 (List.length (filter (same_key game round player r) df))) eqn:E.
      * assert (Hr' : In r (filter (fun r => Nat.leb 2 (List.length
                          (filter (same_key game round player r) df))) df))
          by (apply filter_In; auto).
        rewrite H in Hr'. contradiction.
      * apply Nat.leb_gt in E. lia.
    + apply (count_occ_not_In key_eq_dec) in Hout. lia.
  - intros H. destruct (filter _ df) as [|r l] eqn:E; [reflexivity|].
    assert (Hr : In r (filter (fun r => Nat.leb 2 (List.length
                     (filter (same_key game round player r) df))) df))
      by (rewrite E; left; reflexivity).
    apply filter_In in Hr. destruct Hr as [_ Hr]. apply Nat.leb_le in Hr.
    rewrite twins_count in Hr. specialize (H (row_key game round player r)). lia.
Qed.

Lemma same_key_filter_sub r df :
  In r (duplicates game round player df) ->
  incl (filter (same_key game round player r) df) (duplicates game round player df).
Proof.
  rewrite duplicates_filter. intros Hr x Hx.
  apply filter_In in Hr. destruct Hr as [_ Hr].
  apply filter_In in Hx. destruct Hx as [Hx Hk].
  apply filter_In. split; [assumption|].
  apply same_key_iff in Hk.
  rewrite !twins_count in *. rewrite <- Hk. assumption.
Qed.

Lemma filter_filter_length (f g : row -> bool) df :
  (forall x, In x df -> f x = true -> g x = true) ->
  (List.length (filter f df) <= List.length (filter g df))%nat.
Proof.
  induction df as [|x df IH]; simpl; intros H; [lia|].
  destruct (f x) eqn:F.
  - rewrite (H x (or_introl eq_refl) F). simpl.
    apply le_n_S, IH. intros y Hy. apply H. right. assumption.
  - destruct (g x); simpl; [apply Nat.le_le_succ_r|];
      apply IH; intros y Hy; apply H; right; assumption.
Qed.

(** X6. The duplicate check never shows a single row: every row it shows
    is a row of the frame and comes with all the rows that share its key, so
    that what is shown is empty or has at least two rows. *)
Theorem duplicates_come_with_their_twins (df : list row) :
  (forall r, In r (duplicates game round player df) ->
     In r df
     /\ (2 <= List.length (filter (same_key game round player r) df))%nat
     /\ incl (filter (same_key game round player r) df)
             (duplicates game round player df))
  /\ (duplicates game round player df = []
      \/ (2 <= List.length (duplicates game round player df))%nat).
Proof.
  split.
  - intros r Hr. pose proof (same_key_filter_sub r df Hr) as Hsub.
    rewrite duplicates_filter in Hr. apply filter_In in Hr.
    destruct Hr as [Hin Hc]. apply Nat.leb_le in Hc. auto.
  - destruct (duplicates game round player df) as [|r l] eqn:E; [left; reflexivity|].
    right. rewrite <- E.
    assert (Hr : In r (duplicates game round player df)) by (rewrite E; left; reflexivity).
    pose proof Hr as Hr'. rewrite duplicates_filter in Hr'.
    apply filter_In in Hr'. destruct Hr' as [_ Hc]. apply Nat.leb_le in Hc.
    etransitivity; [exact Hc|].
    rewrite duplicates_filter. apply filter_filter_length.
    intros x Hx Hk. apply same_key_iff in Hk.
    assert (Hx' : In x (filter (same_key game round player r) df)).
    { apply filter_In. split; [assumption|]. apply same_key_iff. assumption. }
    apply (same_key_filter_sub r df Hr) in Hx'.
    rewrite duplicates_filter in Hx'. apply filter_In in Hx'. tauto.
Qed.

End KeyedRows.

Section StatusRows.
Context {row : Type}.
Variables (total_seconds : row -> option Z) (is_playing : row -> bool).

Lemma is_zero_iff x : is_zero x = true <-> x = Some 0.
Proof.
  destruct x as [z|]; simpl; [|split; discriminate].
  rewrite Z.eqb_eq. split; congruence.
Qed.

Lemma consistent_iff r :
  consistent total_seconds is_playing r
  <-> (is_zero (total_seconds r) && Bool.eqb (is_playing r) true = false
       /\ negb (is_zero (total_seconds r)) && Bool.eqb (is_playing r) false = false).
Proof.
  unfold consistent, is_zero.
  destruct (total_seconds r) as [z|]; [destruct (Z.eqb_spec z 0) as [->|N]|];
    destruct (is_playing r); simpl; split; intros H;
    try (split; reflexivity); try (destruct H; discriminate);
    try (split; [intros _; congruence|reflexivity]);
    try (split; [discriminate|intros H'; exfalso; apply H'; reflexivity]);
    try (split; [intros _; discriminate|reflexivity]).
  - exfalso. apply (proj1 H); reflexivity.
  - exfalso. assert (false = true) by (apply H; congruence). discriminate.
  - exfalso. assert (false = true) by (apply H; discriminate). discriminate.
Qed.

Lemma filter_nil_iff (f : row -> bool) df :
  filter f df = [] <-> forall r, In r df -> f r = false.
Proof.
  induction df as [|x df IH]; simpl; [tauto|].
  destruct (f x) eqn:E.
  - split; [discriminate|]. intros H. specialize (H x (or_introl eq_refl)). congruence.
  - rewrite IH. split; [intros H r [<-|Hr]; auto|auto].
Qed.

Lemma check_inconsistencies_stdout df :
  check_inconsistencies total_seconds is_playing df
  = Done tt
      ((if is_empty (inconsistencies_is_playing_true total_seconds is_playing df)
           && is_empty (inconsistencies_is_playing_false total_seconds is_playing df)
        then [Text "No inconsistencies found"] else [])
       ++ (if is_empty (inconsistencies_is_playing_true total_seconds is_playing df)
           then []
           else [Frame (inconsistencies_is_playing_true total_seconds is_playing df);
                 Text reason])
       ++ (if is_empty (inconsistencies_is_playing_false total_seconds is_playing df)
           then []
           else [Frame (inconsistencies_is_playing_false total_seconds is_playing df);
                 Text reason])).
Proof.
  unfold check_inconsistencies. cbv zeta.
  destruct (is_empty (inconsistencies_is_playing_true total_seconds is_playing df)),
           (is_empty (inconsistencies_is_playing_false total_seconds is_playing df));
    reflexivity.
Qed.

Lemma is_empty_iff (l : list row) : is_empty l = true <-> l = [].
Proof. destruct l; simpl; split; congruence. Qed.

(** X7. 'No inconsistencies found' is printed exactly when every row has
    playing time if and only if it is marked as playing; otherwise the cell
    prints the offending rows, and in no case does it print nothing. *)
Theorem no_inconsistencies_iff_all_consistent (df : list row) :
  (In (Text "No inconsistencies found")
      (stdout (check_inconsistencies total_seconds is_playing df))
   <-> forall r, In r df -> consistent total_seconds is_playing r)
  /\ stdout (check_inconsistencies total_seconds is_playing df) <> [].
Proof.
  rewrite check_inconsistencies_stdout. cbn [stdout].
  assert (Hall : (inconsistencies_is_playing_true total_seconds is_playing df = []
                  /\ inconsistencies_is_playing_false total_seconds is_playing df = [])
                 <-> forall r, In r df -> consistent total_seconds is_playing r).
  { unfold inconsistencies_is_playing_true, inconsistencies_is_playing_false.
    rewrite !filter_nil_iff. split.
    - intros [H1 H2] r Hr. apply consistent_iff. auto.
    - intros H. split; intros r Hr; apply (consistent_iff r); auto. }
  rewrite <- Hall, <- !is_empty_iff.
  destruct (is_empty (inconsistencies_is_playing_true total_seconds is_playing df)),
           (is_empty (inconsistencies_is_playing_false total_seconds is_playing df));
    simpl; split; try discriminate; split; intros H; auto;
    try (destruct H; discriminate);
    repeat (destruct H as [H|H]; try discriminate H); try contradiction.
Qed.

(** X8. Every row of the frame is consistent or is shown in exactly one of
    the two frames the cell can print: a row marked as playing without playing
    time in the first, a row not marked as playing with playing time (or with a
    failed conversion) in the second; a frame that is printed is never empty. *)
Theorem inconsistent_rows_are_shown_once (df : list row) (r : row)
    (Hr : In r df) :
  (consistent total_seconds is_playing r
   \/ In r (inconsistencies_is_playing_true total_seconds is_playing df)
   \/ In r (inconsistencies_is_playing_false total_seconds is_playing df))
  /\ ~ (In r (inconsistencies_is_playing_true total_seconds is_playing df)
        /\ In r (inconsistencies_is_playing_false total_seconds is_playing df))
  /\ (In r (inconsistencies_is_playing_true total_seconds is_playing df)
      <-> total_seconds r = Some 0 /\ is_playing r = true)
  /\ (In r (inconsistencies_is_playing_false total_seconds is_playing df)
      <-> total_seconds r <> Some 0 /\ is_playing r = false)
  /\ (forall rows,
        In (Frame rows) (stdout (check_inconsistencies total_seconds is_playing df)) ->
        rows <> []
        /\ (rows = inconsistencies_is_playing_true total_seconds is_playing df
            \/ rows = inconsistencies_is_playing_false total_seconds is_playing df)).
Proof.
  assert (Ht : In r (inconsistencies_is_playing_true total_seconds is_playing df)
               <-> total_seconds r = Some 0 /\ is_playing r = true).
  { unfold inconsistencies_is_playing_true. rewrite filter_In, andb_true_iff, is_zero_iff.
    destruct (is_playing r); simpl; intuition discriminate. }
  assert (Hf : In r (inconsistencies_is_playing_false total_seconds is_playing df)
               <-> total_seconds r <> Some 0 /\ is_playing r = false).
  { unfold inconsistencies_is_playing_false.
    rewrite filter_In, andb_true_iff, negb_true_iff.
    rewrite <- is_zero_iff, not_true_iff_false.
    destruct (is_playing r); simpl; intuition discriminate. }
  split; [|split; [|split; [exact Ht|split; [exact Hf|]]]].
  - rewrite Ht, Hf. unfold consistent.
    destruct (is_playing r).
    + destruct (total_seconds r) as [z|]; [destruct (Z.eq_dec z 0) as [->|N]|].
      * right. left. auto.
      * left. split; [intros _; congruence|reflexivity].
      * left. split; [intros _; discriminate|reflexivity].
    + destruct (total_seconds r) as [z|]; [destruct (Z.eq_dec z 0) as [->|N]|].
      * left. split; [discriminate|intros H; exfalso; apply H; reflexivity].
      * right. right. split; [congruence|reflexivity].
      * right. right. split; [discriminate|reflexivity].
  - rewrite Ht, Hf. intros [[_ H1] [_ H2]]. congruence.
  - rewrite check_inconsistencies_stdout. cbn [stdout].
    intros rows Hin.
    destruct (inconsistencies_is_playing_true total_seconds is_playing df) as [|a l] eqn:E1,
             (inconsistencies_is_playing_false total_seconds is_playing df) as [|b l'] eqn:E2;
      simpl in Hin;
      repeat (destruct Hin as [Hin|Hin]; try discriminate Hin; try contradiction);
      injection Hin as <-; split; try discriminate; auto.
Qed.

End StatusRows.

(** A frame of two substitutes who committed a foul from the bench, as in
    round 36 of the season, and one regular row. *)
Example bench_fouls_are_shown :
  stdout (check_inconsistencies (fun r => Some (total_seconds r)) is_playing
            [ box "MAD-PAR" 36 PO true "Vukcevic Tristan" 0 0 1 0;
              box "MAD-PAR" 36 PO true "Punter Kevin" 5 0 0 1500 ])
  = [ Frame [box "MAD-PAR" 36 PO true "Vukcevic Tristan" 0 0 1 0];
      Text reason ].
Proof. reflexivity. Qed.

End CleaningFrameFacts.

Module CleaningNames.
Import Cleaning.

Lemma inconsistent_rows_are_shown_once_witness :
  In (box "MAD-PAR" 36 PO true "Vukcevic Tristan" 0 0 1 0)
     (inconsistencies_is_playing_true (fun r => Some (total_seconds r)) is_playing
        [ box "MAD-PAR" 36 PO true "Vukcevic Tristan" 0 0 1 0;
          box "MAD-PAR" 36 PO true "Punter Kevin" 5 0 0 1500 ])
  <-> Some (total_seconds (box "MAD-PAR" 36 PO true "Vukcevic Tristan" 0 0 1 0)) = Some 0
      /\ is_playing (box "MAD-PAR" 36 PO true "Vukcevic Tristan" 0 0 1 0) = true.
Proof.
  refine (proj1 (proj2 (proj2
    (CleaningFrameFacts.inconsistent_rows_are_shown_once
       (fun r => Some (total_seconds r)) is_playing _ _ _)))).
  simpl. left. reflexivity.
Defined.

Lemma dict_find_In d k v : dict_find d k = Some v -> In (k, v) d.
Proof.
  induction d as [|[k' v'] d IH]; simpl; [discriminate|].
  destruct (String.eqb k k') eqn:E.
  - apply String.eqb_eq in E. intros H. injection H as ->. subst. left. reflexivity.
  - intros H. right. apply IH. assumption.
Qed.

Lemma dict_find_None d k : dict_find d k = None -> ~ In k (map fst d).
Proof.
  induction d as [|[k' v'] d IH]; simpl; [tauto|].
  destruct (String.eqb k k') eqn:E; [discriminate|].
  apply String.eqb_neq in E. intros H [Hk|Hk]; [congruence|]. apply (IH H Hk).
Qed.

(** No new name is itself an old name, and none is the team's name. *)
Lemma new_names_are_final :
  forallb (fun kv => match dict_find player_names (snd kv) with
                     | None => negb (String.eqb (snd kv) TEAM)
                     | Some _ => false
                     end) player_names = true.
Proof. vm_compute. reflexivity. Qed.

Lemma team_is_no_old_name : dict_find player_names TEAM = None.
Proof. vm_compute. reflexivity. Qed.

(** X9. Renaming the players is idempotent and leaves the team's rows the
    team's rows: a name is the team sentinel after the renaming exactly if it
    was before. *)
Theorem replace_player_idempotent_and_keeps_team (name : string) :
  replace_player (replace_player name) = replace_player name
  /\ (replace_player name = TEAM <-> name = TEAM).
Proof.
  pose proof new_names_are_final as Hfinal. rewrite forallb_forall in Hfinal.
  unfold replace_player at 2 3 4.
  destruct (dict_find player_names name) as [v|] eqn:E.
  - apply dict_find_In in E. pose proof E as Hin.
    specialize (Hfinal _ E). cbn [snd] in Hfinal.
    unfold replace_player.
    destruct (dict_find player_names v); [discriminate Hfinal|].
    apply negb_true_iff, String.eqb_neq in Hfinal.
    split; [reflexivity|]. split; [congruence|].
    intros ->. apply (in_map fst) in Hin. cbn [fst] in Hin.
    exfalso. exact (dict_find_None _ _ team_is_no_old_name Hin).
  - unfold replace_player. rewrite E. split; [reflexivity|tauto].
Qed.

(** X10. No two of the sixteen raw names are renamed to the same player,
    and a raw name that is not in the table is kept as it is. *)
Theorem replace_player_merges_no_listed_names (a b : string) :
  (In a (map fst player_names) -> In b (map fst player_names) ->
   replace_player a = replace_player b -> a = b)
  /\ (~ In a (map fst player_names) -> replace_player a = a).
Proof.
  split.
  - intros Ha Hb. revert a b Ha Hb.
    assert (H : forallb (fun a => forallb (fun b =>
                  implb (String.eqb (replace_player a) (replace_player b))
                        (String.eqb a b)) (map fst player_names))
                (map fst player_names) = true) by (vm_compute; reflexivity).
    intros a b Ha Hb E. rewrite forallb_forall in H. specialize (H a Ha).
    rewrite forallb_forall in H. specialize (H b Hb).
    rewrite E, String.eqb_refl in H. simpl in H. apply String.eqb_eq. assumption.
  - intros Ha. unfold replace_player.
    destruct (dict_find player_names a) as [v|] eqn:E; [|reflexivity].
    exfalso. apply Ha. apply dict_find_In in E. apply (in_map fst) in E. assumption.
Qed.

Lemma replace_player_merges_no_listed_names_witness :
  replace_player "Punter Kevin" = "Punter Kevin"
  /\ (replace_player "PUNTER, KEVIN  XAVIER" = replace_player "LESSORT, MATHIAS" ->
      "PUNTER, KEVIN  XAVIER" = "LESSORT, MATHIAS").
Proof.
  split.
  - apply (proj2 (replace_player_merges_no_listed_names "Punter Kevin" EmptyString)).
    vm_compute. intuition discriminate.
  - apply (proj1 (replace_player_merges_no_listed_names
                    "PUNTER, KEVIN  XAVIER" "LESSORT, MATHIAS"));
      vm_compute; auto 20.
Defined.

End CleaningNames.

(** ** int64 arithmetic *)

Module Int64Facts.

#[export] Instance eq64_equiv : Equivalence eq64 := eqm_setoid (2 ^ 64).
#[export] Instance eq64_add : Proper (eq64 ==> eq64 ==> eq64) Z.add := Zplus_eqm (2 ^ 64).
#[export] Instance eq64_sub : Proper (eq64 ==> eq64 ==> eq64) Z.sub := Zminus_eqm (2 ^ 64).
#[export] Instance eq64_mul : Proper (eq64 ==> eq64 ==> eq64) Z.mul := Zmult_eqm (2 ^ 64).

Lemma wrap64_eq64 z : eq64 (wrap64 z) z.
Proof.
  unfold eq64, eqm, wrap64.
  rewrite Zminus_mod, Zmod_mod, <- Zminus_mod. f_equal. lia.
Qed.

Lemma eq64_wrap a b : eq64 a b <-> wrap64 a = wrap64 b.
Proof.
  split.
  - intros H. unfold wrap64. f_equal.
    assert (H' : eq64 (a + 2 ^ 63) (b + 2 ^ 63)) by (rewrite H; reflexivity).
    exact H'.
  - intros H. rewrite <- (wrap64_eq64 a), <- (wrap64_eq64 b), H. reflexivity.
Qed.

#[export] Instance eq64_wrap64 : Proper (eq64 ==> eq) wrap64.
Proof. intros a b H. apply eq64_wrap. exact H. Qed.

Lemma wrap64_range z : - 2 ^ 63 <= wrap64 z < 2 ^ 63.
Proof.
  unfold wrap64. pose proof (Z.mod_pos_bound (z + 2 ^ 63) (2 ^ 64)). lia.
Qed.

Lemma wrap64_idem z : wrap64 (wrap64 z) = wrap64 z.
Proof. apply wrap64_small, wrap64_range. Qed.

Lemma eq64_sub_0 a b : eq64 a b <-> eq64 (a - b) 0.
Proof.
  split; intros H.
  - rewrite H. replace (b - b) with 0 by lia. reflexivity.
  - replace a with (a - b + b) by lia. rewrite H. reflexivity.
Qed.

(** An int64 difference is zero exactly when the two values are the same
    int64 value. *)
Lemma wrap64_sub_0 a b : wrap64 (a - b) = 0 <-> wrap64 a = wrap64 b.
Proof.
  rewrite <- eq64_wrap, eq64_sub_0, eq64_wrap.
  rewrite (wrap64_small 0) by lia. reflexivity.
Qed.

Lemma col_sum_eq64 col df : eq64 (col_sum col df) (Zsum (map col df)).
Proof. apply wrap64_eq64. Qed.

Lemma Zsum_app l l' : Zsum (l ++ l') = Zsum l + Zsum l'.
Proof. induction l as [|x l IH]; simpl; [reflexivity|]. unfold Zsum in *. lia. Qed.

Lemma Zsum_eq64 {A : Type} (f g : A -> Z) (l : list A) :
  (forall r, In r l -> eq64 (f r) (g r)) ->
  eq64 (Zsum (map f l)) (Zsum (map g l)).
Proof.
  induction l as [|r l IH]; intros H; [reflexivity|].
  change (eq64 (f r + Zsum (map f l)) (g r + Zsum (map g l))).
  rewrite (H r), IH; [reflexivity| |left; reflexivity].
  intros r' Hr'. apply H. right. exact Hr'.
Qed.

Lemma Zsum_map_add {A : Type} (f g : A -> Z) (l : list A) :
  Zsum (map (fun r => f r + g r) l) = Zsum (map f l) + Zsum (map g l).
Proof. induction l as [|r l IH]; simpl; [reflexivity|]. unfold Zsum in *. lia. Qed.

Lemma Zsum_map_sub {A : Type} (f g : A -> Z) (l : list A) :
  Zsum (map (fun r => f r - g r) l) = Zsum (map f l) - Zsum (map g l).
Proof. induction l as [|r l IH]; simpl; [reflexivity|]. unfold Zsum in *. lia. Qed.

Lemma Zsum_map_scale {A : Type} (f : A -> Z) (k : Z) (l : list A) :
  Zsum (map (fun r => f r * k) l) = Zsum (map f l) * k.
Proof. induction l as [|r l IH]; simpl; [reflexivity|]. unfold Zsum in *. lia. Qed.

End Int64Facts.

(** ** Rebound split, field goals and valuation *)

Module ValidationCellFacts.
Import Validation ValidationCells Int64Facts.

Lemma filter_nil_all {A : Type} (p : A -> bool) (l : list A) :
  filter p l = [] <-> forall r, In r l -> p r = false.
Proof.
  induction l as [|a l IH]; simpl.
  - split; [intros _ r []|reflexivity].
  - destruct (p a) eqn:E.
    + split; [discriminate|]. intros H. specialize (H a (or_introl eq_refl)). congruence.
    + rewrite IH. split.
      * intros H r [<-|Hr]; auto.
      * intros H r Hr. apply H. right. exact Hr.
Qed.

Lemma rebounds_cell_consistent df :
  stdout (rebounds_cell df) = [msg_rebounds_consistent]
  <-> forall r, In r df -> total_rebounds r = calculated_total_rebounds r.
Proof.
  unfold rebounds_cell.
  destruct (inconsistent_rebounds df) as [|r0 rest] eqn:E.
  - split; [intros _|reflexivity].
    unfold inconsistent_rebounds in E.
    intros r Hr. pose proof (proj1 (filter_nil_all _ _) E r Hr) as E'. clear E.
    rename E' into E. cbv beta in E. rewrite negb_false_iff in E.
    apply Z.eqb_eq. exact E.
  - split; [intros H; vm_compute in H; discriminate H|].
    intros H. exfalso.
    assert (Hin : In r0 (inconsistent_rebounds df)) by (rewrite E; left; reflexivity).
    unfold inconsistent_rebounds in Hin. apply filter_In in Hin.
    destruct Hin as [Hin Hne]. rewrite (H r0 Hin), Z.eqb_refl in Hne. discriminate Hne.
Qed.

(** The sum of the totals of any selection of rows whose split is consistent. *)
Lemma split_sum (p : Row -> bool) (df : DataFrame) :
  (forall r, In r df -> total_rebounds r = calculated_total_rebounds r) ->
  eq64 (Zsum (map total_rebounds (filter p df)))
       (Zsum (map offensive_rebounds (filter p df))
        + Zsum (map defensive_rebounds (filter p df))).
Proof.
  intros H. rewrite <- Zsum_map_add. apply Zsum_eq64.
  intros r Hr. apply filter_In in Hr. destruct Hr as [Hr _].
  rewrite (H r Hr). apply wrap64_eq64.
Qed.

(** X11. When the rebound cell reports the totals consistent with their
    split, the split carries over to the season sums: the team sum and the
    player sum of total rebounds are the int64 sums of their offensive and
    defensive parts, and the unassigned team rebounds printed later are the
    unassigned offensive rebounds plus the unassigned defensive ones. *)
Theorem consistent_split_carries_to_sums (df : DataFrame) :
  stdout (rebounds_cell df) = [msg_rebounds_consistent] ->
  col_sum total_rebounds (partizan_team df)
  = add64 (col_sum offensive_rebounds (partizan_team df))
          (col_sum defensive_rebounds (partizan_team df))
  /\ col_sum total_rebounds (partizan_players df)
     = add64 (col_sum offensive_rebounds (partizan_players df))
             (col_sum defensive_rebounds (partizan_players df))
  /\ rebound_difference df
     = add64 (sub64 (col_sum offensive_rebounds (partizan_team df))
                    (col_sum offensive_rebounds (partizan_players df)))
             (sub64 (col_sum defensive_rebounds (partizan_team df))
                    (col_sum defensive_rebounds (partizan_players df))).
Proof.
  intros H0. pose proof (proj1 (rebounds_cell_consistent df) H0) as H. clear H0.
  pose proof (split_sum (fun r => String.eqb (player r) TEAM) df H) as Ht.
  pose proof (split_sum (fun r => negb (String.eqb (player r) TEAM)) df H) as Hp.
  unfold rebound_difference, add64, sub64, col_sum, partizan_team, partizan_players.
  repeat split; apply eq64_wrap; rewrite !wrap64_eq64.
  - exact Ht.
  - exact Hp.
  - rewrite Ht, Hp. match goal with |- eq64 ?a ?b => replace a with b by lia end.
    reflexivity.
Qed.

Lemma consistent_split_carries_to_sums_witness :
  stdout (rebounds_cell df_unassigned) = [msg_rebounds_consistent]
  /\ rebound_difference df_unassigned
     = add64 (sub64 (col_sum offensive_rebounds (partizan_team df_unassigned))
                    (col_sum offensive_rebounds (partizan_players df_unassigned)))
             (sub64 (col_sum defensive_rebounds (partizan_team df_unassigned))
                    (col_sum defensive_rebounds (partizan_players df_unassigned))).
Proof.
  split; [vm_compute; reflexivity|].
  apply (consistent_split_carries_to_sums df_unassigned). vm_compute. reflexivity.
Defined.

(** *** Field goals *)

Lemma player_errors_nil df :
  player_errors df = []
  <-> forall r, In r (partizan_players df) -> field_goal_points r = points_minus_ft r.
Proof.
  unfold player_errors. split; intros H.
  - intros r Hr. pose proof (proj1 (filter_nil_all _ _) H r Hr) as E. cbv beta in E.
    rewrite negb_false_iff in E. apply Z.eqb_eq. exact E.
  - apply (proj2 (filter_nil_all _ _)). intros r Hr.
    rewrite negb_false_iff. apply Z.eqb_eq. apply H. exact Hr.
Qed.

(** With every player row in order, the team discrepancy is the player
    points minus the team points. *)
Lemma team_discrepancy_points df :
  player_errors df = [] ->
  team_discrepancy df
  = sub64 (col_sum points (partizan_players df)) (col_sum points (partizan_team df)).
Proof.
  intros H. rewrite player_errors_nil in H.
  assert (E : eq64 (Zsum (map two_points_made (partizan_players df)) * 2
                    + Zsum (map three_points_made (partizan_players df)) * 3)
                   (Zsum (map points (partizan_players df))
                    - Zsum (map free_throws_made (partizan_players df)))).
  { rewrite <- !Zsum_map_scale, <- Zsum_map_add, <- Zsum_map_sub.
    apply Zsum_eq64. intros r Hr. specialize (H r Hr).
    unfold field_goal_points, points_minus_ft, add64, sub64, mul64 in H.
    apply eq64_wrap in H. rewrite !wrap64_eq64 in H. exact H. }
  unfold team_discrepancy, team_field_goal_points, team_points_minus_ft,
    add64, sub64, mul64, col_sum.
  apply eq64_wrap. rewrite !wrap64_eq64. rewrite E.
  match goal with |- eq64 ?a ?b => replace a with b by lia end. reflexivity.
Qed.

Lemma validate_field_goals_ok df :
  stdout (validate_field_goals df) = [Cleaning.Text msg_field_goals_ok]
  <-> player_errors df = [] /\ team_discrepancy df = 0.
Proof.
  unfold validate_field_goals. cbv zeta.
  destruct (player_errors df) as [|r0 rest] eqn:E; cbn [Cleaning.is_empty andb negb].
  - destruct (team_discrepancy df =? 0) eqn:D; cbn [negb bind ret print stdout app].
    + apply Z.eqb_eq in D. split; auto.
    + apply Z.eqb_neq in D. split; [intros H; simpl in H; discriminate H|].
      intros [_ H]. contradiction.
  - split; [|intros [H _]; discriminate H].
    destruct (negb (team_discrepancy df =? 0));
      cbn [bind ret print stdout app]; intros H; discriminate H.
Qed.

(** X12. The field-goal cell reports the field goals accurate for all
    players and team totals exactly when every player row has
    2 * twos + 3 * threes = points - free throws and the player point sum
    equals the team point sum: the shooting columns of the team rows are
    never read. *)
Theorem field_goals_ok_iff (df : DataFrame) :
  stdout (validate_field_goals df) = [Cleaning.Text msg_field_goals_ok]
  <-> (forall r, In r (partizan_players df) ->
         field_goal_points r = points_minus_ft r)
      /\ col_sum points (partizan_players df) = col_sum points (partizan_team df).
Proof.
  rewrite validate_field_goals_ok, <- player_errors_nil.
  split; intros [He H]; (split; [exact He|]).
  - rewrite (team_discrepancy_points df He) in H. unfold sub64 in H.
    apply wrap64_sub_0 in H. unfold col_sum in H. rewrite !wrap64_idem in H.
    exact H.
  - rewrite (team_discrepancy_points df He). unfold sub64.
    apply wrap64_sub_0. rewrite H. reflexivity.
Qed.

(** A team row with four points and no made shot passes. *)
Example team_shots_are_not_read :
  validate_field_goals df_team_shots = Done tt [Cleaning.Text msg_field_goals_ok].
Proof. vm_compute. reflexivity. Qed.

(** *** Valuation *)

Lemma valuation_holds_iff frame :
  valuation_holds frame = true
  <-> forall r, In r frame -> valuation r = expected_valuation r.
Proof.
  unfold valuation_holds. rewrite forallb_forall. split; intros H r Hr.
  - apply Z.eqb_eq. apply H. exact Hr.
  - apply Z.eqb_eq. apply H. exact Hr.
Qed.

Lemma validate_valuation_stdout df :
  stdout (validate_valuation df)
  = [ if valuation_holds (partizan_players df)
      then "Valuation is accurate for all players."
      else "Player valuation mismatch detected!";
      if valuation_holds (partizan_team df)
      then "Valuation is accurate for the team."
      else "Team valuation mismatch detected!" ].
Proof.
  unfold validate_valuation.
  destruct (valuation_holds (partizan_players df)),
           (valuation_holds (partizan_team df)); reflexivity.
Qed.

(** X13. The valuation cell prints its two "accurate" lines exactly when
    every row of the frame, player or team, has a valuation equal to the
    index rating of its own columns; it prints two lines in every case. *)
Theorem valuation_accurate_iff (df : DataFrame) :
  List.length (stdout (validate_valuation df)) = 2%nat
  /\ (stdout (validate_valuation df)
      = [ "Valuation is accurate for all players.";
          "Valuation is accurate for the team." ]
      <-> forall r, In r df -> valuation r = expected_valuation r).
Proof.
  rewrite validate_valuation_stdout. split; [reflexivity|].
  split.
  - intros H r Hr.
    destruct (valuation_holds (partizan_players df)) eqn:Ep; [|discriminate H].
    destruct (valuation_holds (partizan_team df)) eqn:Et; [|discriminate H].
    rewrite valuation_holds_iff in Ep, Et.
    destruct (String.eqb (player r) TEAM) eqn:E.
    + apply Et. unfold partizan_team. apply filter_In. auto.
    + apply Ep. unfold partizan_players. apply filter_In. rewrite E. auto.
  - intros H.
    assert (Ep : valuation_holds (partizan_players df) = true).
    { apply valuation_holds_iff. intros r Hr. apply H.
      unfold partizan_players in Hr. apply filter_In in Hr. tauto. }
    assert (Et : valuation_holds (partizan_team df) = true).
    { apply valuation_holds_iff. intros r Hr. apply H.
      unfold partizan_team in Hr. apply filter_In in Hr. tauto. }
    rewrite Ep, Et. reflexivity.
Qed.

Lemma pir_of_sums_cons r frame :
  pir_of_sums (r :: frame)
  = points r + total_rebounds r + assists r + steals r + blocks_favour r
    + fouls_received r
    - ((two_points_attempted r - two_points_made r)
       + (three_points_attempted r - three_points_made r)
       + (free_throws_attempted r - free_throws_made r)
       + turnovers r + blocks_against r + fouls_committed r)
    + pir_of_sums frame.
Proof. unfold pir_of_sums, Zsum. cbv zeta. cbn [map fold_right]. lia. Qed.

Lemma expected_valuation_eq64 r :
  eq64 (expected_valuation r)
       (points r + total_rebounds r + assists r + steals r + blocks_favour r
        + fouls_received r
        - ((two_points_attempted r - two_points_made r)
           + (three_points_attempted r - three_points_made r)
           + (free_throws_attempted r - free_throws_made r)
           + turnovers r + blocks_against r + fouls_committed r)).
Proof.
  unfold expected_valuation, missed_field_goals, missed_free_throws, add64, sub64.
  rewrite !wrap64_eq64. reflexivity.
Qed.

Lemma valuation_sum frame :
  valuation_holds frame = true ->
  col_sum valuation frame = wrap64 (pir_of_sums frame).
Proof.
  rewrite valuation_holds_iff. intros H. unfold col_sum. apply eq64_wrap.
  induction frame as [|r frame IH]; [reflexivity|].
  rewrite pir_of_sums_cons.
  change (eq64 (valuation r + Zsum (map valuation frame))
               (points r + total_rebounds r + assists r + steals r + blocks_favour r
                + fouls_received r
                - ((two_points_attempted r - two_points_made r)
                   + (three_points_attempted r - three_points_made r)
                   + (free_throws_attempted r - free_throws_made r)
                   + turnovers r + blocks_against r + fouls_committed r)
                + pir_of_sums frame)).
  rewrite (H r (or_introl eq_refl)), expected_valuation_eq64.
  rewrite IH; [reflexivity|]. intros r' Hr'. apply H. right. exact Hr'.
Qed.

(** X14. When the valuation cell finds the players and the team accurate,
    the valuation sum of the player rows, and that of the team rows, is the
    index rating computed from the column sums of those rows, as an int64
    value. *)
Theorem accurate_valuation_carries_to_sums (df : DataFrame) :
  stdout (validate_valuation df)
  = [ "Valuation is accurate for all players.";
      "Valuation is accurate for the team." ] ->
  col_sum valuation (partizan_players df) = wrap64 (pir_of_sums (partizan_players df))
  /\ col_sum valuation (partizan_team df) = wrap64 (pir_of_sums (partizan_team df)).
Proof.
  rewrite validate_valuation_stdout. intros H.
  destruct (valuation_holds (partizan_players df)) eqn:Ep; [|discriminate H].
  destruct (valuation_holds (partizan_team df)) eqn:Et; [|discriminate H].
  split; apply valuation_sum; assumption.
Qed.

Lemma accurate_valuation_carries_to_sums_witness :
  stdout (validate_valuation df_unassigned)
  = [ "Valuation is accurate for all players.";
      "Valuation is accurate for the team." ]
  /\ col_sum valuation (partizan_players df_unassigned) = 34.
Proof.
  split; [vm_compute; reflexivity|].
  destruct (accurate_valuation_carries_to_sums df_unassigned) as [H _];
    [vm_compute; reflexivity|].
  rewrite H. vm_compute. reflexivity.
Defined.

End ValidationCellFacts.

(** ** From the games to the season *)

Module ValidationSeasonFacts.
Import Validation ValidationFacts ValidationClaims Int64Facts.

Lemma unique_from_is_NoDup (seen l : list string) : NoDup (unique_from seen l).
Proof.
  revert seen. induction l as [|x l IH]; intros seen; simpl; [constructor|].
  destruct (existsb (String.eqb x) seen); [apply IH|].
  constructor; [|apply IH].
  rewrite In_unique_from. intros [_ H]. apply H. left. reflexivity.
Qed.

Lemma games_NoDup df : NoDup (games df).
Proof. apply unique_from_is_NoDup. Qed.

Lemma filter_swap {A : Type} (p q : A -> bool) (l : list A) :
  filter p (filter q l) = filter q (filter p l).
Proof.
  induction l as [|a l IH]; [reflexivity|]. simpl.
  destruct (q a) eqn:Q, (p a) eqn:P; simpl; rewrite ?Q, ?P, IH; reflexivity.
Qed.

(** A value counted under the code of its game only. *)
Lemma Zsum_one_game (g : string) (c : Z) (gs : list string) :
  NoDup gs ->
  Zsum (map (fun g' => if String.eqb g g' then c else 0) gs)
  = if in_dec string_dec g gs then c else 0.
Proof.
  induction 1 as [|g' gs Hg' Hnd IH]; [reflexivity|].
  change (Zsum (map (fun g'0 => if String.eqb g g'0 then c else 0) (g' :: gs)))
    with ((if String.eqb g g' then c else 0)
          + Zsum (map (fun g'0 => if String.eqb g g'0 then c else 0) gs)).
  rewrite IH. destruct (String.eqb_spec g g') as [->|Hne].
  - destruct (in_dec string_dec g' gs) as [Hin|_]; [contradiction|].
    destruct (in_dec string_dec g' (g' :: gs)) as [_|Hn]; [lia|].
    exfalso. apply Hn. left. reflexivity.
  - destruct (in_dec string_dec g gs) as [Hin|Hn],
             (in_dec string_dec g (g' :: gs)) as [Hin'|Hn']; try lia.
    + exfalso. apply Hn'. right. exact Hin.
    + exfalso. destruct Hin' as [E|Hin']; [congruence|contradiction].
Qed.

(** A column sum is the sum of its per-game sums. *)
Lemma Zsum_by_game (col : Row -> Z) (l : DataFrame) (gs : list string) :
  NoDup gs -> (forall r, In r l -> In (game r) gs) ->
  Zsum (map col l)
  = Zsum (map (fun g => Zsum (map col (filter (fun r => String.eqb (game r) g) l))) gs).
Proof.
  intros Hnd. induction l as [|r l IH]; intros Hin.
  - clear. induction gs as [|g gs IHg]; [reflexivity|].
    unfold Zsum in *. cbn [map filter fold_right] in *. rewrite <- IHg. reflexivity.
  - rewrite (map_ext _ (fun g => (if String.eqb (game r) g then col r else 0)
                                  + Zsum (map col (filter (fun r0 => String.eqb (game r0) g) l)))).
    + rewrite Zsum_map_add, Zsum_one_game by exact Hnd.
      destruct (in_dec string_dec (game r) gs) as [_|Hn].
      * rewrite <- IH; [reflexivity|]. intros r' Hr'. apply Hin. right. exact Hr'.
      * exfalso. apply Hn, Hin. left. reflexivity.
    + intros g. cbn [filter]. destruct (String.eqb (game r) g); reflexivity.
Qed.

(** Two selections of rows whose sums agree in every game have the same
    season sum. *)
Lemma season_from_games (p q : Row -> bool) (col : Row -> Z) (df : DataFrame) :
  (forall g, In g (games df) ->
     col_sum col (filter p (game_data df g)) = col_sum col (filter q (game_data df g))) ->
  col_sum col (filter p df) = col_sum col (filter q df).
Proof.
  intros H. unfold col_sum. apply eq64_wrap.
  assert (Hin : forall f r, In r (filter f df) -> In (game r) (games df)).
  { intros f r Hr. apply filter_In in Hr. apply In_games, in_map. tauto. }
  rewrite (Zsum_by_game col (filter p df) (games df) (games_NoDup df) (Hin p)).
  rewrite (Zsum_by_game col (filter q df) (games df) (games_NoDup df) (Hin q)).
  apply Zsum_eq64. intros g Hg. specialize (H g Hg).
  unfold col_sum, game_data in H. apply eq64_wrap in H.
  rewrite (filter_swap _ p), (filter_swap _ q). exact H.
Qed.

Lemma games_ok_printed df :
  In msg_games_ok (stdout (per_game_cell df))
  <-> forallb (game_ok df) (games df) = true.
Proof.
  rewrite per_game_cell_eq. cbn [stdout]. rewrite in_app_iff. split.
  - intros [H|H]; [exfalso; apply (msg_games_ok_not_mismatch _ _ H)|].
    destruct (forallb (game_ok df) (games df)); [reflexivity|contradiction].
  - intros ->. right. left. reflexivity.
Qed.

(** X15. When the per-game cell closes with its line that the team totals
    match the player sums in all games, the season sums of points, assists
    and seconds of the player rows equal those of the team rows, so the
    season check cannot fail on these three metrics. *)
Theorem games_agreement_carries_to_season (df : DataFrame) (col : Row -> Z) :
  In msg_games_ok (stdout (per_game_cell df)) ->
  In col [points; assists; total_seconds] ->
  col_sum col (partizan_players df) = col_sum col (partizan_team df).
Proof.
  intros H Hcol. rewrite games_ok_printed, forallb_forall in H.
  unfold partizan_players, partizan_team. apply season_from_games.
  intros g Hg. specialize (H g Hg).
  unfold game_ok, per_game_metrics in H. cbn [forallb snd] in H.
  rewrite !andb_true_iff, !negb_true_iff in H.
  unfold metric_mismatch in H. rewrite !negb_false_iff, !Z.eqb_eq in H.
  unfold team_row, players_in_game in H.
  simpl in Hcol. intuition (subst; auto).
Qed.

Lemma games_agreement_carries_to_season_witness :
  In msg_games_ok (stdout (per_game_cell df_fouls))
  /\ col_sum total_seconds (partizan_players df_fouls)
     = col_sum total_seconds (partizan_team df_fouls).
Proof.
  split; [vm_compute; left; reflexivity|].
  apply (games_agreement_carries_to_season df_fouls total_seconds).
  - vm_compute. left. reflexivity.
  - simpl. auto.
Defined.

(** The season sums can agree while the games do not. *)
Example season_agreement_hides_games :
  check_metrics df_points_swapped
  = Done tt ["All metrics that should match perfectly are matching perfectly"]
  /\ per_game_cell df_points_swapped
     = Done false ["Points mismatch in game PAR-MAD"; "Points mismatch in game OLY-PAR"].
Proof. split; vm_compute; reflexivity. Qed.

Lemma difference_zero (col : Row -> Z) (df : DataFrame) :
  wrap64 (col_sum col (partizan_team df) - col_sum col (partizan_players df)) = 0
  <-> col_sum col (partizan_players df) = col_sum col (partizan_team df).
Proof.
  rewrite wrap64_sub_0. unfold col_sum. rewrite !wrap64_idem.
  split; intros H; symmetry; exact H.
Qed.

(** X16. The number of unassigned team rebounds printed is zero exactly when
    the explanation for rebounds was not printed, and likewise for turnovers;
    after the line that all metrics match, both numbers are zero. *)
Theorem unassigned_zero_iff_no_explanation (df : DataFrame) :
  (rebound_difference df = 0
   <-> ~ In msg_rebounds (stdout (check_and_explain_metrics df)))
  /\ (turnover_difference df = 0
      <-> ~ In msg_turnovers (stdout (check_and_explain_metrics df)))
  /\ (In msg_all_matching (stdout (check_and_explain_metrics df)) ->
      rebound_difference df = 0 /\ turnover_difference df = 0).
Proof.
  assert (Hr : rebound_difference df = 0
               <-> ~ In msg_rebounds (stdout (check_and_explain_metrics df))).
  { rewrite (In_explanation df total_rebounds msg_rebounds) by (simpl; auto).
    unfold rebound_difference. rewrite difference_zero.
    destruct (Z.eq_dec (col_sum total_rebounds (partizan_players df))
                       (col_sum total_rebounds (partizan_team df))); tauto. }
  assert (Ht : turnover_difference df = 0
               <-> ~ In msg_turnovers (stdout (check_and_explain_metrics df))).
  { rewrite (In_explanation df turnovers msg_turnovers) by (simpl; auto).
    unfold turnover_difference. rewrite difference_zero.
    destruct (Z.eq_dec (col_sum turnovers (partizan_players df))
                       (col_sum turnovers (partizan_team df))); tauto. }
  split; [exact Hr|]. split; [exact Ht|].
  intros H. rewrite Hr, Ht.
  rewrite (In_explanation df total_rebounds msg_rebounds) by (simpl; auto).
  rewrite (In_explanation df turnovers msg_turnovers) by (simpl; auto).
  rewrite check_and_explain_metrics_eq in H. cbn [stdout] in H.
  destruct (Z.eqb_spec (col_sum total_rebounds (partizan_players df))
                       (col_sum total_rebounds (partizan_team df))) as [Er|Er];
  destruct (Z.eqb_spec (col_sum steals (partizan_players df))
                       (col_sum steals (partizan_team df))) as [Es|Es];
  destruct (Z.eqb_spec (col_sum turnovers (partizan_players df))
                       (col_sum turnovers (partizan_team df))) as [Et|Et];
  cbn [In negb andb app] in H; try (split; intros H'; contradiction);
  exfalso; distinct_messages H.
Qed.

Lemma unassigned_zero_iff_no_explanation_witness :
  In msg_all_matching (stdout (check_and_explain_metrics df_fouls))
  /\ rebound_difference df_fouls = 0 /\ turnover_difference df_fouls = 0.
Proof.
  assert (H : In msg_all_matching (stdout (check_and_explain_metrics df_fouls)))
    by (vm_compute; left; reflexivity).
  split; [exact H|].
  exact (proj2 (proj2 (unassigned_zero_iff_no_explanation df_fouls)) H).
Defined.

End ValidationSeasonFacts.

(** ** The frame the models are trained on *)

Module TrainingFrameFacts.
Import Modeling ModelingFacts LagFacts HarnessFacts.

Lemma In_dropna {A B : Type} (a : A) (b : B) (l : list (A * option B)) :
  In (a, b) (dropna l) <-> In (a, Some b) l.
Proof.
  induction l as [|[a' [b'|]] l IH]; simpl; [tauto| |].
  - rewrite IH. split; (intros [E|H]; [left; congruence|right; exact H]).
  - rewrite IH. split; [auto|]. intros [E|H]; [discriminate E|exact H].
Qed.

Lemma In_active_players df s :
  In s (active_players df) ->
  In (row s) (active_players_eligible df)
  /\ s = add_context (row s, points_previous_game s).
Proof.
  unfold active_players. rewrite in_map_iff. intros [[r z] [<- H]].
  split; [|reflexivity]. cbn [add_context row fst].
  apply (proj1 (In_dropna _ _ _)) in H. unfold active_players_lagged in H.
  apply in_combine_l in H. unfold active_players_sorted in H.
  apply (Permutation_in _ (Permutation_sym (sort_by_perm _ _))) in H. exact H.
Qed.

(** X17. Every row of the frame the models are trained on is a row of the
    data of a player, not of the team, who was playing in that game and has
    at least ten counted games; its playoff and home flags are 0 or 1. *)
Theorem training_frame_rows (df : DataFrame) (s : Sample) :
  In s (active_players df) ->
  In (row s) df
  /\ player (row s) <> TEAM
  /\ is_playing (row s) = true
  /\ (10 <= player_games df (player (row s)))%nat
  /\ (is_playoff s = 0 \/ is_playoff s = 1)
  /\ (is_home s = 0 \/ is_home s = 1).
Proof.
  intros H. destruct (In_active_players df s H) as [Hr Hs].
  unfold active_players_eligible in Hr. apply filter_In in Hr.
  destruct Hr as [Hr Hg]. apply Nat.leb_le in Hg.
  unfold active_players_playing in Hr. apply filter_In in Hr.
  destruct Hr as [Hr Hp]. unfold players in Hr. apply filter_In in Hr.
  destruct Hr as [Hr Ht]. apply negb_true_iff, String.eqb_neq in Ht.
  repeat split; try assumption.
  - destruct (is_playing (row s)); [reflexivity|discriminate Hp].
  - rewrite Hs. cbn [add_context is_playoff fst].
    destruct (String.eqb _ _); auto.
  - rewrite Hs. cbn [add_context is_home fst].
    destruct (String.prefix _ _); auto.
Qed.

Lemma training_frame_rows_witness :
  In (add_context (box "BAS-PAR" 2 RS true "Lessort Mathias" 6 0 0 600, 10))
     (active_players df_season)
  /\ (10 <= player_games df_season "Lessort Mathias")%nat.
Proof.
  assert (H : In (add_context (box "BAS-PAR" 2 RS true "Lessort Mathias" 6 0 0 600, 10))
                 (active_players df_season)) by (vm_compute; left; reflexivity).
  split; [exact H|].
  exact (proj1 (proj2 (proj2 (proj2 (training_frame_rows df_season _ H))))).
Defined.

(** The rows a per-player model is given. *)
Lemma player_data_length df p :
  List.length (player_data (active_players df) p)
  = if Nat.leb min_player_games (player_games df p)
    then pred (List.length (player_rows p (active_players_playing df)))
    else 0%nat.
Proof.
  change (player_data (active_players df) p) with (pooled df p).
  rewrite pooled_length, <- (Permutation_length (series_perm df p)), series_eligible.
  destruct (Nat.leb min_player_games (player_games df p)); reflexivity.
Qed.

(** X18. The rows a per-player model is given are the player's active rows
    but the first when the player has ten counted games, and none otherwise;
    so [train_player_model] prints its not-enough-data line, and fits no
    model, exactly when the player has fewer than ten counted games or at most
    ten active rows. *)
Theorem player_model_needs_eleven_rows (sk : Sklearn) (df : DataFrame) (p : string) :
  let n := List.length (player_data (active_players df) p) in
  n = (if Nat.leb 10 (player_games df p)
       then pred (List.length (player_rows p (active_players_playing df)))
       else 0%nat)
  /\ (stdout (train_player_model sk (active_players df) p) = [not_enough_line p n]
      <-> (player_games df p < 10)%nat
          \/ (List.length (player_rows p (active_players_playing df)) <= 10)%nat).
Proof.
  cbv zeta. pose proof (player_data_length df p) as Hn.
  unfold min_player_games in Hn. split; [exact Hn|].
  assert (Hlt : (List.length (player_data (active_players df) p) < 10)%nat
                <-> (player_games df p < 10)%nat
                    \/ (List.length (player_rows p (active_players_playing df)) <= 10)%nat).
  { rewrite Hn. destruct (Nat.leb 10 (player_games df p)) eqn:E.
    - apply Nat.leb_le in E. lia.
    - apply Nat.leb_gt in E. lia. }
  rewrite <- Hlt. split.
  - intros H.
    destruct (Nat.lt_ge_cases (List.length (player_data (active_players df) p)) 10)
      as [Hs|Hs]; [exact Hs|].
    destruct (train_player_model_fit sk (active_players df) p Hs)
      as (title & intercept & coefs & E).
    rewrite E in H. discriminate H.
  - intros H. rewrite (train_player_model_short sk (active_players df) p H).
    reflexivity.
Qed.

(** X19. A request for a name that no active player row carries, the team
    name included, is answered by the not-enough-data line with zero games:
    the lookup of an unknown player does not raise. *)
Theorem unknown_player_has_zero_games (sk : Sklearn) (df : DataFrame) (p : string) :
  p = TEAM \/ (forall r, In r df -> is_playing r = true -> player r <> p) ->
  train_player_model sk (active_players df) p = Done tt [not_enough_line p 0].
Proof.
  intros H.
  assert (Hrows : player_rows p (active_players_playing df) = []).
  { destruct (player_rows p (active_players_playing df)) as [|r l] eqn:E; [reflexivity|].
    exfalso.
    assert (Hr : In r (player_rows p (active_players_playing df)))
      by (rewrite E; left; reflexivity).
    unfold player_rows in Hr. apply filter_In in Hr. destruct Hr as [Hr Hp].
    apply String.eqb_eq in Hp.
    unfold active_players_playing in Hr. apply filter_In in Hr.
    destruct Hr as [Hr Ha]. unfold players in Hr. apply filter_In in Hr.
    destruct Hr as [Hr Ht]. apply negb_true_iff, String.eqb_neq in Ht.
    destruct H as [->|H]; [contradiction|].
    apply (H r Hr); [|exact Hp]. destruct (is_playing r); [reflexivity|discriminate Ha]. }
  assert (Hn : List.length (player_data (active_players df) p) = 0%nat).
  { rewrite player_data_length, Hrows.
    destruct (Nat.leb min_player_games (player_games df p)); reflexivity. }
  rewrite train_player_model_short by lia. rewrite Hn. reflexivity.
Qed.

Lemma unknown_player_has_zero_games_witness :
  (TEAM = TEAM
   \/ (forall r, In r df_season -> is_playing r = true -> player r <> TEAM))
  /\ train_player_model sk0 (active_players df_season) TEAM
     = Done tt [not_enough_line TEAM 0].
Proof.
  assert (H : TEAM = TEAM
              \/ (forall r, In r df_season -> is_playing r = true -> player r <> TEAM))
    by (left; reflexivity).
  split; [exact H|].
  apply (unknown_player_has_zero_games sk0 df_season TEAM H).
Defined.

End TrainingFrameFacts.

(** ** The tables of the consistency notebook *)

Module ConsistencyTableFacts.
Import Consistency ConsistencyFacts.

Lemma Zsum_perm l l' : Permutation l l' -> Zsum l = Zsum l'.
Proof. unfold Zsum. induction 1; simpl; lia. Qed.

Lemma Rsum_perm l l' : Permutation l l' -> Rsum l = Rsum l'.
Proof. unfold Rsum. induction 1; simpl; lra. Qed.

Lemma count_perm xs ys : Permutation xs ys -> count xs = count ys.
Proof. intros H. unfold count. rewrite (Permutation_length H). reflexivity. Qed.

Lemma avg_perm xs ys : Permutation xs ys -> avg xs = avg ys.
Proof.
  intros H. unfold avg. rewrite (Zsum_perm _ _ H), (count_perm _ _ H). reflexivity.
Qed.

(** The mean of a series does not depend on the order of its values. *)
Lemma series_mean_perm xs ys : Permutation xs ys -> series_mean xs = series_mean ys.
Proof.
  intros H. destruct xs as [|x xs], ys as [|y ys]; try reflexivity.
  - apply Permutation_nil in H. discriminate H.
  - apply Permutation_sym, Permutation_nil in H. discriminate H.
  - change (Some (avg (x :: xs)) = Some (avg (y :: ys))).
    rewrite (avg_perm _ _ H). reflexivity.
Qed.

(** Nor does its standard deviation. *)
Lemma series_std_perm xs ys : Permutation xs ys -> series_std xs = series_std ys.
Proof.
  intros H. unfold series_std.
  rewrite (Permutation_length H), (count_perm _ _ H), !dev_products_self.
  rewrite (avg_perm _ _ H).
  rewrite (Rsum_perm _ _ (Permutation_map
             (fun x => ((IZR x - avg ys) * (IZR x - avg ys))%R) H)).
  reflexivity.
Qed.

Lemma active_rows_perm df p :
  Permutation (player_rows p (active_players_playing df))
              (player_rows p (active_players df)).
Proof. apply player_rows_sort_values_perm. Qed.

Lemma size_group_size df p : ConsistencyTables.size df p = group_size df p.
Proof.
  unfold ConsistencyTables.size, group_size.
  apply Permutation_length, active_rows_perm.
Qed.

Lemma loc_consistency_stats_with_means df p :
  loc p (ConsistencyTables.consistency_stats_with_means df)
  = if Nat.leb min_games (ConsistencyTables.size df p)
    then Some (ConsistencyTables.agg_mean_std (player_rows p (active_players_playing df)))
    else None.
Proof.
  unfold ConsistencyTables.consistency_stats_with_means.
  rewrite (loc_map_keys
             (fun q => ConsistencyTables.agg_mean_std
                         (player_rows q (active_players_playing df)))),
          existsb_filter_keys.
  destruct (Nat.leb min_games (ConsistencyTables.size df p)) eqn:E; [|reflexivity].
  simpl. apply Nat.leb_le in E. unfold min_games, ConsistencyTables.size in E.
  assert (H : existsb (fun q => String.eqb q p)
                      (group_keys (active_players_playing df)) = true).
  { apply existsb_group_keys, player_rows_nonempty_key. lia. }
  rewrite H. reflexivity.
Qed.

Lemma loc_consistency_stats df p :
  loc p (ConsistencyTables.consistency_stats df)
  = if Nat.leb min_games (ConsistencyTables.size df p)
    then Some {| ConsistencyTables.points_sd :=
                   series_std (map points (player_rows p (active_players_playing df)));
                 ConsistencyTables.valuation_sd :=
                   series_std (map valuation (player_rows p (active_players_playing df)));
                 ConsistencyTables.plus_minus_sd :=
                   series_std (map plus_minus (player_rows p (active_players_playing df))) |}
    else None.
Proof.
  unfold ConsistencyTables.consistency_stats. cbv zeta.
  rewrite (loc_map_keys
             (fun q =>
                {| ConsistencyTables.points_sd :=
                     series_std (map points (player_rows q (active_players_playing df)));
                   ConsistencyTables.valuation_sd :=
                     series_std (map valuation (player_rows q (active_players_playing df)));
                   ConsistencyTables.plus_minus_sd :=
                     series_std (map plus_minus (player_rows q (active_players_playing df))) |})),
          existsb_filter_keys.
  destruct (Nat.leb min_games (ConsistencyTables.size df p)) eqn:E; [|reflexivity].
  simpl. apply Nat.leb_le in E. unfold min_games, ConsistencyTables.size in E.
  assert (H : existsb (fun q => String.eqb q p)
                      (group_keys (active_players_playing df)) = true).
  { apply existsb_group_keys, player_rows_nonempty_key. lia. }
  rewrite H. reflexivity.
Qed.

(** X20. The three tables of the notebook agree: a player has a row in
    [consistency_stats] and in [consistency_stats_with_means] exactly when
    the player has one in [consistency_full], and the means and standard
    deviations are the same, although the first two tables are computed
    before the frame is sorted and the last one after (in exact
    arithmetic). *)
Theorem tables_agree_across_the_sort (df : DataFrame) (p : string) :
  loc p (ConsistencyTables.consistency_stats_with_means df)
  = option_map means_and_sds (loc p (consistency_full df))
  /\ loc p (ConsistencyTables.consistency_stats df)
     = option_map sds (loc p (consistency_full df)).
Proof.
  rewrite loc_consistency_stats_with_means, loc_consistency_stats,
    loc_consistency_full, size_group_size.
  pose proof (active_rows_perm df p) as H.
  destruct (Nat.leb min_games (group_size df p)); [|split; reflexivity].
  cbn [option_map]. unfold means_and_sds, sds, agg_group, ConsistencyTables.agg_mean_std.
  cbv zeta.
  cbn [points_mean points_sd valuation_mean valuation_sd plus_minus_mean plus_minus_sd].
  rewrite !(series_mean_perm _ _ (Permutation_map points H)),
          !(series_mean_perm _ _ (Permutation_map valuation H)),
          !(series_mean_perm _ _ (Permutation_map plus_minus H)),
          !(series_std_perm _ _ (Permutation_map points H)),
          !(series_std_perm _ _ (Permutation_map valuation H)),
          !(series_std_perm _ _ (Permutation_map plus_minus H)).
  split; reflexivity.
Qed.

End ConsistencyTableFacts.

(** ** The index of the consistency tables *)

Module ConsistencyIndexFacts.
Import Consistency ConsistencyFacts.

Lemma StronglySorted_NoDup_strict {A : Type} (R : A -> A -> Prop) (l : list A) :
  StronglySorted R l -> NoDup l -> StronglySorted (fun a b => R a b /\ a <> b) l.
Proof.
  induction 1 as [|x l Hl IH Hx]; intros Hnd; [constructor|].
  inversion Hnd as [|? ? Hnx Hndl]; subst.
  constructor; [apply IH; assumption|].
  rewrite Forall_forall in *. intros y Hy. split; [apply Hx; assumption|].
  intros ->. contradiction.
Qed.

Lemma In_group_keys df p : In p (group_keys df) <-> In p (map player df).
Proof.
  unfold group_keys. split; intros H.
  - apply (Permutation_in _ (Permutation_sym (sort_by_perm String.compare _))) in H.
    apply (proj1 (In_unique _ _)). exact H.
  - apply (Permutation_in _ (sort_by_perm String.compare _)).
    apply (proj2 (In_unique _ _)). exact H.
Qed.

(** The group keys come in ascending order, each one once. *)
Lemma group_keys_sorted df :
  StronglySorted (fun a b => String.compare a b = Lt) (group_keys df).
Proof.
  unfold group_keys.
  apply (StronglySorted_impl_In
           (fun a b => leb_of String.compare a b = true /\ a <> b)).
  - intros a b _ _ [Hle Hne]. unfold leb_of in Hle.
    destruct (String.compare a b) eqn:E; [|reflexivity|discriminate Hle].
    apply String.compare_eq_iff in E. contradiction.
  - apply StronglySorted_NoDup_strict.
    + apply (sort_by_sorted _ string_compare_laws).
    + apply (Permutation_NoDup (sort_by_perm String.compare _)).
      apply ValidationSeasonFacts.unique_from_is_NoDup.
Qed.

Lemma map_fst_keys {V : Type} (f : string -> V) (keys : list string) :
  map fst (map (fun p => (p, f p)) keys) = keys.
Proof. induction keys as [|k keys IH]; simpl; [reflexivity|]. rewrite IH. reflexivity. Qed.

Lemma consistency_full_keys df :
  map fst (consistency_full df)
  = filter (fun p => Nat.leb min_games (group_size df p)) (group_keys (active_players df)).
Proof. unfold consistency_full. apply map_fst_keys. Qed.

Lemma group_size_playing df p :
  group_size df p = List.length (player_rows p (active_players_playing df)).
Proof.
  unfold group_size. symmetry. apply Permutation_length, player_rows_sort_values_perm.
Qed.

Lemma team_has_no_group df : group_size df TEAM = 0%nat.
Proof.
  rewrite group_size_playing.
  destruct (player_rows TEAM (active_players_playing df)) as [|r l] eqn:E; [reflexivity|].
  exfalso.
  assert (Hr : In r (player_rows TEAM (active_players_playing df)))
    by (rewrite E; left; reflexivity).
  unfold player_rows in Hr. apply filter_In in Hr. destruct Hr as [Hr Hp].
  unfold active_players_playing in Hr. apply filter_In in Hr. destruct Hr as [Hr _].
  unfold players in Hr. apply filter_In in Hr. destruct Hr as [_ Ht].
  rewrite Hp in Ht. discriminate Ht.
Qed.

Lemma In_consistency_full_keys df p :
  In p (map fst (consistency_full df)) <-> (10 <= group_size df p)%nat.
Proof.
  rewrite consistency_full_keys, filter_In, In_group_keys. unfold min_games.
  rewrite Nat.leb_le. split; [tauto|]. intros H. split; [|exact H].
  apply player_rows_nonempty_key. unfold group_size in H. lia.
Qed.

(** X21. [consistency_full] has one row for each player with at least ten
    active records and for no one else, in ascending order of the names; the
    team has no row; and every player with an entry in [autocorr_points] has
    a row. *)
Theorem consistency_full_index (df : DataFrame) :
  StronglySorted (fun a b => String.compare a b = Lt) (map fst (consistency_full df))
  /\ (forall p, In p (map fst (consistency_full df))
                <-> (10 <= List.length (player_rows p (active_players_playing df)))%nat)
  /\ ~ In TEAM (map fst (consistency_full df))
  /\ incl (map fst (autocorr_points df)) (map fst (consistency_full df)).
Proof.
  split; [|split; [|split]].
  - rewrite consistency_full_keys. apply StronglySorted_filter, group_keys_sorted.
  - intros p. rewrite In_consistency_full_keys, group_size_playing. reflexivity.
  - rewrite In_consistency_full_keys, team_has_no_group. lia.
  - intros p Hp. apply In_consistency_full_keys.
    apply in_map_iff in Hp. destruct Hp as [[q r] [E Hin]]. cbn [fst] in E. subst q.
    unfold autocorr_points in Hin.
    apply (proj1 (TrainingFrameFacts.In_dropna _ _ _)) in Hin.
    apply in_map_iff in Hin. destruct Hin as [q [E _]].
    injection E as -> E. unfold autocorr_or_nan in E. rewrite length_map in E.
    destruct (Nat.leb 10 (List.length (player_rows p (active_players df)))) eqn:L;
      [|discriminate E].
    apply Nat.leb_le in L. exact L.
Qed.

End ConsistencyIndexFacts.

(** ** Bounds on the statistics *)

Module StatisticsFacts.
Import Consistency ConsistencyFacts.

(** Cauchy-Schwarz for the deviations from any two centres. *)
Lemma deviations_cauchy_schwarz (ca cb : R) (a b : list Z) :
  List.length a = List.length b ->
  let A := Rsum (map (fun x => (IZR x - ca) * (IZR x - ca))%R a) in
  let B := Rsum (map (fun x => (IZR x - cb) * (IZR x - cb))%R b) in
  let C := Rsum (map (fun ab => (IZR (fst ab) - ca) * (IZR (snd ab) - cb))%R
                     (combine a b)) in
  (0 <= A /\ 0 <= B /\ C * C <= A * B)%R.
Proof.
  cbv zeta. revert b. induction a as [|x a IH]; intros [|y b] Hlen;
    try discriminate Hlen.
  - simpl. lra.
  - injection Hlen as Hlen. specialize (IH b Hlen).
    cbn [map combine Rsum fold_right fst snd].
    change (fold_right Rplus 0%R) with Rsum.
    set (A := Rsum (map (fun x => (IZR x - ca) * (IZR x - ca))%R a)) in *.
    set (B := Rsum (map (fun x => (IZR x - cb) * (IZR x - cb))%R b)) in *.
    set (C := Rsum (map (fun ab => (IZR (fst ab) - ca) * (IZR (snd ab) - cb))%R
                        (combine a b))) in *.
    set (u := (IZR x - ca)%R). set (v := (IZR y - cb)%R).
    destruct IH as (HA & HB & HC).
    pose proof (Rle_0_sqr u) as Hu. pose proof (Rle_0_sqr v) as Hv.
    unfold Rsqr in Hu, Hv.
    split; [lra|]. split; [lra|].
    assert (Hk : (2 * C * u * v <= A * (v * v) + B * (u * u))%R).
    { destruct (Rle_lt_or_eq_dec 0 A HA) as [Hpos|Hz].
      - pose proof (Rle_0_sqr (A * v - C * u)) as Hs. unfold Rsqr in Hs.
        assert (Hp : (0 <= (u * u) * (A * B - C * C))%R)
          by (apply Rmult_le_pos; lra).
        assert (Hq : (0 <= A * (A * (v * v) + B * (u * u) - 2 * C * u * v))%R)
          by nra.
        destruct (Rle_or_lt (2 * C * u * v) (A * (v * v) + B * (u * u)))
          as [Hok|Hbad]; [exact Hok|].
        exfalso.
        assert (Hneg : (A * (A * (v * v) + B * (u * u) - 2 * C * u * v) < 0)%R).
        { replace (A * (A * (v * v) + B * (u * u) - 2 * C * u * v))%R
            with (- (A * (2 * C * u * v - (A * (v * v) + B * (u * u)))))%R by ring.
          apply Ropp_lt_gt_0_contravar. apply Rmult_gt_0_compat; lra. }
        lra.
      - assert (HC0 : C = 0%R).
        { rewrite <- Hz in HC. pose proof (Rle_0_sqr C) as Hs. unfold Rsqr in Hs.
          assert (Hcc : (C * C = 0)%R) by lra.
          apply Rmult_integral in Hcc. tauto. }
        rewrite HC0, <- Hz. assert (0 <= B * (u * u))%R by (apply Rmult_le_pos; lra).
        lra. }
    nra.
Qed.

Lemma dev_products_cauchy_schwarz (a b : list Z) :
  List.length a = List.length b ->
  (dev_products a b * dev_products a b <= dev_products a a * dev_products b b)%R.
Proof.
  intros H. rewrite (dev_products_self a), (dev_products_self b).
  apply (deviations_cauchy_schwarz (avg a) (avg b) a b H).
Qed.

(** A correlation coefficient lies between -1 and 1. *)
Lemma corrcoef_bounds a b r :
  (2 <= List.length a)%nat -> List.length b = List.length a ->
  corrcoef a b = Some r -> (-1 <= r <= 1)%R.
Proof.
  intros Ha Hb H. pose proof (corrcoef_spec a b r Ha Hb H) as Hs.
  pose proof (dev_products_cauchy_schwarz a b (eq_sym Hb)) as Hcs.
  pose proof (dev_products_self_nonneg a) as Pa.
  pose proof (dev_products_self_nonneg b) as Pb.
  assert (Na : dev_products a a <> 0%R).
  { intros E. unfold corrcoef, cov in H. rewrite E in H.
    unfold Rdiv in H. rewrite Rmult_0_l in H.
    destruct (Req_dec_T 0 0) as [_|N]; [discriminate H|apply N; reflexivity]. }
  assert (Nb : dev_products b b <> 0%R).
  { intros E. unfold corrcoef, cov in H. rewrite E in H.
    unfold Rdiv in H. rewrite !Rmult_0_l in H.
    destruct (Req_dec_T _ 0) as [_|_]; [discriminate H|].
    destruct (Req_dec_T 0 0) as [_|N]; [discriminate H|apply N; reflexivity]. }
  pose proof (sqrt_sqrt _ Pa) as Sa. pose proof (sqrt_sqrt _ Pb) as Sb.
  assert (Qa : (0 < sqrt (dev_products a a))%R) by (apply sqrt_lt_R0; lra).
  assert (Qb : (0 < sqrt (dev_products b b))%R) by (apply sqrt_lt_R0; lra).
  set (sa := sqrt (dev_products a a)) in *. set (sb := sqrt (dev_products b b)) in *.
  assert (Qab : (0 < sa * sb)%R) by (apply Rmult_lt_0_compat; assumption).
  assert (Hr : (r * (sa * sb) * (r * (sa * sb)) <= (sa * sb) * (sa * sb))%R).
  { replace (r * (sa * sb))%R with (dev_products a b) by (rewrite <- Hs; ring).
    replace (sa * sb * (sa * sb))%R with ((sa * sa) * (sb * sb))%R by ring.
    rewrite Sa, Sb. exact Hcs. }
  set (t := (sa * sb)%R) in *.
  split.
  - destruct (Rle_or_lt (-1) r) as [Hok|Hbad]; [exact Hok|]. exfalso.
    assert (t < - r * t)%R by nra. 
    assert (t * t < (- r * t) * (- r * t))%R by (apply Rmult_le_0_lt_compat; lra).
    lra.
  - destruct (Rle_or_lt r 1) as [Hok|Hbad]; [exact Hok|]. exfalso.
    assert (t < r * t)%R by nra.
    assert (t * t < (r * t) * (r * t))%R by (apply Rmult_le_0_lt_compat; lra).
    lra.
Qed.

(** The pairs a lag-1 autocorrelation is computed on. *)
Lemma autocorr1_corrcoef xs :
  (2 <= List.length xs)%nat ->
  autocorr1 xs = corrcoef (tl xs) (removelast xs).
Proof.
  intros Hn. unfold autocorr1, series_corr. rewrite autocorr_pairs.
  assert (Hl : List.length (removelast xs) = List.length (tl xs))
    by apply length_removelast_tl.
  rewrite map_fst_combine_eq, map_snd_combine_eq by congruence.
  rewrite length_combine, Hl, Nat.min_id.
  destruct xs as [|x [|y xs]]; simpl in Hn; try lia. reflexivity.
Qed.

(** X22. Every entry of [autocorr_points], and so every autocorrelation in
    [consistency_full], lies between -1 and 1 (in exact arithmetic). *)
Theorem autocorrelations_are_bounded (df : DataFrame) :
  Forall (fun pr => (-1 <= snd pr <= 1)%R) (autocorr_points df)
  /\ Forall (fun ps => match points_autocorr (snd ps) with
                       | Some r => (-1 <= r <= 1)%R
                       | None => True
                       end) (consistency_full df).
Proof.
  assert (Hloc : forall p r, loc p (autocorr_points df) = Some r -> (-1 <= r <= 1)%R).
  { intros p r H. rewrite loc_autocorr_points in H.
    destruct (Nat.leb 10 (group_size df p)) eqn:L; [|discriminate H].
    apply Nat.leb_le in L. unfold group_size in L.
    rewrite autocorr1_corrcoef in H by (rewrite length_map; lia).
    apply (corrcoef_bounds _ _ r) in H; [exact H| |].
    - destruct (player_rows p (active_players df)) as [|x [|y [|z l]]];
        simpl in L |- *; lia.
    - apply length_removelast_tl. }
  split.
  - apply Forall_forall. intros [p r] Hin. cbn [snd].
    unfold autocorr_points in Hin.
    apply (proj1 (TrainingFrameFacts.In_dropna _ _ _)) in Hin.
    apply in_map_iff in Hin. destruct Hin as [q [E _]]. injection E as -> E.
    unfold autocorr_or_nan in E. rewrite length_map in E.
    destruct (Nat.leb 10 (List.length (player_rows p (active_players df)))) eqn:L;
      [|discriminate E].
    apply (Hloc p). rewrite loc_autocorr_points. unfold group_size. rewrite L. exact E.
  - apply Forall_forall. intros [p st] Hin. cbn [snd].
    unfold consistency_full in Hin. apply in_map_iff in Hin.
    destruct Hin as [q [E _]]. injection E as -> <-.
    unfold agg_group. cbv zeta. cbn [points_autocorr].
    destruct (loc p (autocorr_points df)) as [r|] eqn:E; [|exact I].
    apply (Hloc p r E).
Qed.

End StatisticsFacts.

(** ** A player who scores the same in every game *)

Module ConstantSeriesFacts.
Import Consistency ConsistencyFacts.

Lemma Zsum_constant (c : Z) (xs : list Z) :
  (forall x, In x xs -> x = c) -> Zsum xs = c * Z.of_nat (List.length xs).
Proof.
  induction xs as [|x xs IH]; intros H; [simpl; lia|].
  change (Zsum (x :: xs)) with (x + Zsum xs).
  rewrite IH by (intros y Hy; apply H; right; exact Hy).
  rewrite (H x (or_introl eq_refl)). cbn [List.length]. lia.
Qed.

Lemma avg_constant (c : Z) (xs : list Z) :
  xs <> [] -> (forall x, In x xs -> x = c) -> avg xs = IZR c.
Proof.
  intros Hne H. unfold avg, count. rewrite (Zsum_constant c xs H).
  rewrite mult_IZR, <- INR_IZR_INZ. field.
  apply not_0_INR. destruct xs; [congruence|discriminate].
Qed.

Lemma dev_products_constant (c : Z) (xs : list Z) :
  (forall x, In x xs -> x = c) -> dev_products xs xs = 0%R.
Proof.
  intros H. rewrite dev_products_self.
  destruct xs as [|x0 l] eqn:E; [reflexivity|]. rewrite <- E in *.
  assert (Ha : avg xs = IZR c) by (apply avg_constant; [rewrite E; discriminate|exact H]).
  rewrite Ha. clear Ha E. induction xs as [|x xs IH]; [reflexivity|].
  cbn [map Rsum fold_right]. change (fold_right Rplus 0%R) with Rsum.
  rewrite IH by (intros y Hy; apply H; right; exact Hy).
  rewrite (H x (or_introl eq_refl)). ring.
Qed.

(** The statistics of a constant series: its value, no deviation, and no
    autocorrelation, the variance being zero. *)
Lemma constant_series (c : Z) (xs : list Z) :
  (2 <= List.length xs)%nat -> (forall x, In x xs -> x = c) ->
  series_mean xs = Some (IZR c) /\ series_std xs = Some 0%R /\ autocorr1 xs = None.
Proof.
  intros Hn H. split; [|split].
  - destruct xs as [|x l] eqn:E; [simpl in Hn; lia|]. rewrite <- E in *.
    assert (Hm : series_mean xs = Some (avg xs)) by (rewrite E; reflexivity).
    rewrite Hm, (avg_constant c xs); [reflexivity|rewrite E; discriminate|exact H].
  - unfold series_std.
    destruct (Nat.leb (List.length xs) 1) eqn:L; [apply Nat.leb_le in L; lia|].
    rewrite (dev_products_constant c xs H). unfold Rdiv. rewrite Rmult_0_l, sqrt_0.
    reflexivity.
  - rewrite StatisticsFacts.autocorr1_corrcoef by exact Hn.
    unfold corrcoef, cov.
    rewrite (dev_products_constant c (tl xs)).
    + unfold Rdiv. rewrite Rmult_0_l.
      destruct (Req_dec_T 0 0) as [_|N]; [reflexivity|exfalso; apply N; reflexivity].
    + intros x Hx. apply H. destruct xs; [contradiction|right; exact Hx].
Qed.

(** X23. A player with at least ten active records and the same number of
    points in each of them has that number as points mean, a points
    deviation of zero and no autocorrelation: the row of [consistency_full]
    has NaN in [points_autocorr], and [autocorr_points] has no entry for the
    player. *)
Theorem constant_scorer_has_no_autocorrelation (df : DataFrame) (p : string) (c : Z) :
  (10 <= List.length (player_rows p (active_players_playing df)))%nat ->
  forallb (fun r => points r =? c) (player_rows p (active_players_playing df)) = true ->
  exists st,
    loc p (consistency_full df) = Some st
    /\ points_mean st = Some (IZR c)
    /\ points_sd st = Some 0%R
    /\ points_autocorr st = None
    /\ loc p (autocorr_points df) = None.
Proof.
  intros Hn Hc. rewrite forallb_forall in Hc.
  pose proof (ConsistencyTableFacts.active_rows_perm df p) as Hperm.
  assert (Hlen : (10 <= List.length (player_rows p (active_players df)))%nat)
    by (rewrite <- (Permutation_length Hperm); exact Hn).
  assert (Hall : forall x, In x (map points (player_rows p (active_players df))) -> x = c).
  { intros x Hx. apply in_map_iff in Hx. destruct Hx as [r [<- Hr]].
    apply Z.eqb_eq, Hc.
    apply (Permutation_in _ (Permutation_sym Hperm)). exact Hr. }
  destruct (constant_series c (map points (player_rows p (active_players df))))
    as (Hm & Hs & Ha); [rewrite length_map; lia|exact Hall|].
  assert (Hlocal : loc p (autocorr_points df) = None).
  { rewrite loc_autocorr_points.
    destruct (Nat.leb 10 (group_size df p)); [exact Ha|reflexivity]. }
  exists (agg_group df p). split.
  - rewrite loc_consistency_full. unfold min_games, group_size.
    destruct (Nat.leb 10 (List.length (player_rows p (active_players df)))) eqn:L;
      [reflexivity|]. apply Nat.leb_gt in L. lia.
  - unfold agg_group. cbv zeta.
    cbn [points_mean points_sd points_autocorr]. auto.
Qed.

Lemma constant_scorer_has_no_autocorrelation_witness :
  (10 <= List.length (player_rows "Vukcevic Tristan" (active_players_playing df_constant)))%nat
  /\ exists st,
       loc "Vukcevic Tristan" (consistency_full df_constant) = Some st
       /\ points_mean st = Some 6%R
       /\ points_sd st = Some 0%R
       /\ points_autocorr st = None
       /\ loc "Vukcevic Tristan" (autocorr_points df_constant) = None.
Proof.
  assert (H : (10 <= List.length (player_rows "Vukcevic Tristan"
                                     (active_players_playing df_constant)))%nat)
    by (vm_compute; lia).
  split; [exact H|].
  apply (constant_scorer_has_no_autocorrelation df_constant "Vukcevic Tristan" 6 H).
  vm_compute. reflexivity.
Defined.

End ConstantSeriesFacts.

(** ** Ten games in the two notebooks *)

Module EligibilityFacts.

Lemma unique_from_length (seen l : list string) :
  (List.length (unique_from seen l) <= List.length l)%nat.
Proof.
  revert seen. induction l as [|x l IH]; intros seen; simpl; [lia|].
  destruct (existsb (String.eqb x) seen).
  - specialize (IH seen). lia.
  - specialize (IH (x :: seen)). simpl. lia.
Qed.

(** The games counted for a player are at most the player's active rows. *)
Lemma player_games_le_rows df p :
  (Modeling.player_games df p
   <= List.length (player_rows p (Consistency.active_players_playing df)))%nat.
Proof.
  unfold Modeling.player_games, unique.
  etransitivity; [apply unique_from_length|].
  rewrite length_map. apply Nat.le_refl.
Qed.

(** X24. The modelling notebook asks for ten distinct game codes where the
    consistency notebook asks for ten active rows, so every player admitted
    to the modelling frame has a row in [consistency_full]; a player whose
    game codes repeat can have a row there and still be left out of the
    modelling frame. *)
Theorem modelling_players_have_consistency_rows (df : DataFrame) (p : string) :
  (10 <= Modeling.player_games df p)%nat ->
  In p (map fst (Consistency.consistency_full df))
  /\ (10 <= Consistency.group_size df p)%nat.
Proof.
  intros H. pose proof (player_games_le_rows df p) as Hle.
  assert (Hg : (10 <= Consistency.group_size df p)%nat)
    by (rewrite ConsistencyIndexFacts.group_size_playing; lia).
  split; [|exact Hg].
  apply ConsistencyIndexFacts.In_consistency_full_keys. exact Hg.
Qed.

Lemma modelling_players_have_consistency_rows_witness :
  (10 <= Modeling.player_games df_season "Lessort Mathias")%nat
  /\ In "Lessort Mathias" (map fst (Consistency.consistency_full df_season)).
Proof.
  assert (H : (10 <= Modeling.player_games df_season "Lessort Mathias")%nat)
    by (vm_compute; lia).
  split; [exact H|].
  exact (proj1 (modelling_players_have_consistency_rows df_season "Lessort Mathias" H)).
Defined.

(** Ten active rows under nine game codes: a row in [consistency_full], no
    row in the modelling frame. *)
Example rematch_player_is_in_one_notebook :
  In "Exum Dante" (map fst (Consistency.consistency_full df_rematch))
  /\ Modeling.player_games df_rematch "Exum Dante" = 9%nat
  /\ Modeling.active_players df_rematch = [].
Proof.
  split; [|split].
  - apply ConsistencyIndexFacts.In_consistency_full_keys. vm_compute. lia.
  - vm_compute. reflexivity.
  - vm_compute. reflexivity.
Qed.

End EligibilityFacts.
